(** * fetching_data_random_user_me: the load pipeline of [main.py]

    [main.py] fetches user records from randomuser.me, copies them into the
    PostgreSQL table [api_results] and derives the tables [identities] and
    [profiles] from it with two [INSERT ... SELECT] statements.

    The development embeds the four stages ([setup_db], [get_random_users],
    [load_users_into_api_results], [load_results_into_identities_and_profiles])
    and [main] as functions on an explicit database state, together with the
    parts of Python's [json.dumps], psycopg2's [copy_from] and PostgreSQL's
    JSON operators that the stages call. *)

From Stdlib Require Import List String Ascii ZArith NArith Bool Lia DecimalString.
Import ListNotations.
Local Open Scope list_scope.
Local Open Scope string_scope.
Set Warnings "-register-all".

(** ** JSON documents

    One type serves the Python values [Response.json()] returns and the
    documents of the [json] column.  Strings are byte strings in UTF-8; a
    number is carried as its literal (what [repr] prints on the Python side,
    the digits of the text on the PostgreSQL side).  An object keeps its
    members in order and may repeat a key, as the [json] column type does. *)

Inductive json : Type :=
| JNull
| JBool (b : bool)
| JNumber (lit : string)
| JString (s : string)
| JArray (items : list json)
| JObject (members : list (string * json)).

(** ** Induction on documents *)

Section JsonInduction.

Variable P : json -> Prop.
Hypothesis case_null : P JNull.
Hypothesis case_bool : forall b, P (JBool b).
Hypothesis case_number : forall lit, P (JNumber lit).
Hypothesis case_string : forall s, P (JString s).
Hypothesis case_array : forall items, Forall P items -> P (JArray items).
Hypothesis case_object :
  forall ms, Forall (fun kv => P (snd kv)) ms -> P (JObject ms).

Fixpoint json_induction (v : json) : P v :=
  match v with
  | JNull => case_null
  | JBool b => case_bool b
  | JNumber lit => case_number lit
  | JString s => case_string s
  | JArray items =>
      case_array items
        ((fix each (l : list json) : Forall P l :=
            match l with
            | [] => Forall_nil P
            | x :: l' => Forall_cons x (json_induction x) (each l')
            end) items)
  | JObject ms =>
      case_object ms
        ((fix each (l : list (string * json))
           : Forall (fun kv => P (snd kv)) l :=
            match l with
            | [] => Forall_nil _
            | (k, x) :: l' =>
                Forall_cons (k, x) (json_induction x : P (snd (k, x))) (each l')
            end) ms)
  end.

End JsonInduction.

Module Text.

Definition chars (s : string) : list ascii := list_ascii_of_string s.
Definition text (l : list ascii) : string := string_of_list_ascii l.

Definition code (c : ascii) : N := N_of_ascii c.
Definition char (n : N) : ascii := ascii_of_N n.

Definition hex_digit (n : N) : ascii :=
  if (n <? 10)%N then char (48 + n) else char (87 + n).

(** [format(n, '04x')] for [n < 0x10000] *)
Definition hex4 (n : N) : string :=
  text [hex_digit (N.shiftr n 12 mod 16); hex_digit (N.shiftr n 8 mod 16);
        hex_digit (N.shiftr n 4 mod 16); hex_digit (n mod 16)]%N.

Definition is_cont (c : ascii) : bool :=
  ((128 <=? code c) && (code c <? 192))%N.

(** Code points of a UTF-8 byte sequence.  A byte that does not start a
    well-formed sequence stands for itself. *)
Fixpoint utf8_decode (l : list ascii) : list N :=
  match l with
  | [] => []
  | a :: l1 =>
      let n := code a in
      let single := n :: utf8_decode l1 in
      if (n <? 192)%N then single
      else
        match l1 with
        | b :: l2 =>
            if negb (is_cont b) then single
            else if (n <? 224)%N
            then ((n mod 32) * 64 + code b mod 64)%N :: utf8_decode l2
            else
              match l2 with
              | c :: l3 =>
                  if negb (is_cont c) then single
                  else if (n <? 240)%N
                  then ((n mod 16) * 4096 + (code b mod 64) * 64
                        + code c mod 64)%N :: utf8_decode l3
                  else
                    match l3 with
                    | d :: l4 =>
                        if negb (is_cont d) then single
                        else ((n mod 8) * 262144 + (code b mod 64) * 4096
                              + (code c mod 64) * 64 + code d mod 64)%N
                               :: utf8_decode l4
                    | [] => single
                    end
              | [] => single
              end
        | [] => single
        end
  end.

(** The UTF-8 bytes of a code point. *)
Definition utf8_encode (n : N) : list ascii :=
  if (n <? 128)%N then [char n]
  else if (n <? 2048)%N then [char (192 + n / 64); char (128 + n mod 64)]
  else if (n <? 65536)%N
  then [char (224 + n / 4096); char (128 + (n / 64) mod 64);
        char (128 + n mod 64)]
  else [char (240 + n / 262144); char (128 + (n / 4096) mod 64);
        char (128 + (n / 64) mod 64); char (128 + n mod 64)]%N.

Fixpoint join (sep : string) (l : list string) : string :=
  match l with
  | [] => ""
  | [s] => s
  | s :: l' => s ++ sep ++ join sep l'
  end.

Definition dquote : ascii := char 34.
Definition backslash : ascii := char 92.
Definition tab : ascii := char 9.
Definition newline : ascii := char 10.

Definition quoted (s : string) : string :=
  String dquote (s ++ String dquote "").

Definition is_digit (c : ascii) : bool :=
  ((48 <=? code c) && (code c <=? 57))%N.

Definition oct_value (c : ascii) : option N :=
  if ((48 <=? code c) && (code c <=? 55))%N then Some (code c - 48)%N
  else None.

Definition hex_value (c : ascii) : option N :=
  let n := code c in
  if ((48 <=? n) && (n <=? 57))%N then Some (n - 48)%N
  else if ((65 <=? n) && (n <=? 70))%N then Some (n - 55)%N
  else if ((97 <=? n) && (n <=? 102))%N then Some (n - 87)%N
  else None.

Definition eqc (a b : ascii) : bool := Ascii.eqb a b.

(** The text of a document, with [", "] between items and [": "] after a
    key, strings written by [enc]. *)
Section Render.
Variable enc : string -> string.

Fixpoint render (v : json) : string :=
  match v with
  | JNull => "null"
  | JBool true => "true"
  | JBool false => "false"
  | JNumber lit => lit
  | JString s => enc s
  | JArray items => "[" ++ join ", " (map render items) ++ "]"
  | JObject members =>
      "{" ++ join ", "
               (map (fun kv => enc (fst kv) ++ ": " ++ render (snd kv))
                  members)
      ++ "}"
  end.
End Render.

End Text.

(** ** [json.dumps]

    The default encoder: separators [", "] and [": "], [ensure_ascii] on. *)

Module Py.

Import Text.

(** [json.encoder.py_encode_basestring_ascii]: what replaces one code
    point.  [ESCAPE_ASCII] matches the backslash, the double quote and
    everything outside [' '..'~']. *)
Definition escape_code (n : N) : string :=
  if (n =? 92)%N then "\\"
  else if (n =? 34)%N then String backslash (String dquote "")
  else if (n =? 8)%N then "\b"
  else if (n =? 12)%N then "\f"
  else if (n =? 10)%N then "\n"
  else if (n =? 13)%N then "\r"
  else if (n =? 9)%N then "\t"
  else if ((32 <=? n) && (n <=? 126))%N then String (char n) ""
  else if (n <? 65536)%N then "\u" ++ hex4 n
  else
    let m := (n - 65536)%N in
    "\u" ++ hex4 (N.lor 55296 (N.land (N.shiftr m 10) 1023))
    ++ "\u" ++ hex4 (N.lor 56320 (N.land m 1023)).

Definition encode_basestring_ascii (s : string) : string :=
  quoted (concat "" (map escape_code (utf8_decode (chars s)))).

Definition dumps (v : json) : string := render encode_basestring_ascii v.

End Py.

(** ** Outcomes

    A stage either completes or raises; nothing in [main.py] catches. *)

Inductive exn : Type :=
| ConnectionError      (* requests: the request did not complete *)
| JSONDecodeError      (* Response.json() on a body that is not JSON *)
| KeyError             (* subscript of a dict without the key *)
| TypeError            (* subscript of a value that is not a dict *)
| UndefinedTable       (* psycopg2: relation does not exist *)
| DataError            (* psycopg2: a value the column type or a function rejects *)
| IntegrityError.      (* psycopg2: a constraint is violated *)

Inductive outcome (A : Type) : Type :=
| Ok (a : A)
| Raise (e : exn).
Arguments Ok {A} a.
Arguments Raise {A} e.

Definition bind {A B : Type} (m : outcome A) (f : A -> outcome B) : outcome B :=
  match m with
  | Ok a => f a
  | Raise e => Raise e
  end.

Notation "x <- m ;; k" := (bind m (fun x => k))
  (at level 61, m at next level, right associativity).

Fixpoint mapM {A B : Type} (f : A -> outcome B) (l : list A) : outcome (list B) :=
  match l with
  | [] => Ok []
  | a :: l' => b <- f a ;; bs <- mapM f l' ;; Ok (b :: bs)
  end.

(** ** PostgreSQL: [COPY ... FROM STDIN] in text format, and the [json] type *)

Module Pg.

Import Text.

(** Cuts [l] at every [sep] that no backslash precedes; a backslash takes
    the character after it along, whatever it is. *)
Fixpoint split_raw (sep : ascii) (cur l : list ascii) : list (list ascii) :=
  match l with
  | [] => [rev cur]
  | c :: l' =>
      if eqc c sep then rev cur :: split_raw sep [] l'
      else if eqc c backslash then
        match l' with
        | d :: l'' => split_raw sep (d :: c :: cur) l''
        | [] => [rev (c :: cur)]
        end
      else split_raw sep (c :: cur) l'
  end.

Definition list_eqb (a b : list ascii) : bool :=
  String.eqb (text a) (text b).

Fixpoint until_end_marker (ls : list (list ascii)) : list (list ascii) :=
  match ls with
  | [] => []
  | l :: ls' =>
      if list_eqb l (chars "\.") then [] else l :: until_end_marker ls'
  end.

(** The data lines of a COPY stream: one per newline, the last one also
    without its newline, up to a line that is [\.] alone. *)
Definition copy_lines (data : list ascii) : list (list ascii) :=
  let segs := split_raw newline [] data in
  until_end_marker
    match rev segs with
    | [] :: r => rev r
    | _ => segs
    end.

(** What a backslash and the character [d] after it stand for in a field,
    and what is left of the field. *)
Definition escape_tail (d : ascii) (l : list ascii) : ascii * list ascii :=
  if eqc d "b" then (char 8, l)
  else if eqc d "f" then (char 12, l)
  else if eqc d "n" then (char 10, l)
  else if eqc d "r" then (char 13, l)
  else if eqc d "t" then (char 9, l)
  else if eqc d "v" then (char 11, l)
  else if eqc d "x" then
    match l with
    | h1 :: l1 =>
        match hex_value h1 with
        | Some v1 =>
            match l1 with
            | h2 :: l2 =>
                match hex_value h2 with
                | Some v2 => (char (v1 * 16 + v2), l2)
                | None => (char v1, l1)
                end
            | [] => (char v1, l1)
            end
        | None => (d, l)
        end
    | [] => (d, l)
    end
  else
    match oct_value d with
    | Some v1 =>
        match l with
        | o2 :: l2 =>
            match oct_value o2 with
            | Some v2 =>
                match l2 with
                | o3 :: l3 =>
                    match oct_value o3 with
                    | Some v3 => (char ((v1 * 64 + v2 * 8 + v3) mod 256), l3)
                    | None => (char (v1 * 8 + v2), l2)
                    end
                | [] => (char (v1 * 8 + v2), l2)
                end
            | None => (char v1, l)
            end
        | [] => (char v1, l)
        end
    | None => (d, l)
    end.

Fixpoint unescape (fuel : nat) (l : list ascii) : list ascii :=
  match fuel with
  | O => l
  | S f =>
      match l with
      | [] => []
      | c :: l' =>
          if eqc c backslash then
            match l' with
            | [] => [c]
            | d :: l'' =>
                let (x, r) := escape_tail d l'' in x :: unescape f r
            end
          else c :: unescape f l'
      end
  end.

(** A field of a line: [None] is the NULL marker [\N]. *)
Definition copy_field (raw : list ascii) : option string :=
  if list_eqb raw (chars "\N") then None
  else Some (text (unescape (List.length raw) raw)).

(** *** [json_in]: the text of a [json] value, parsed

    A document is kept parsed, with its strings decoded.  (PostgreSQL
    keeps the text and decodes when a value is extracted; the escapes it
    rejects at that point, [\u0000] and unpaired surrogates, are rejected
    here when the document is read.) *)

Definition is_ws (c : ascii) : bool :=
  let n := code c in ((n =? 32) || (n =? 9) || (n =? 10) || (n =? 13))%N.

Fixpoint skip_ws (l : list ascii) : list ascii :=
  match l with
  | c :: l' => if is_ws c then skip_ws l' else l
  | [] => []
  end.

Fixpoint span (p : ascii -> bool) (l : list ascii) : list ascii * list ascii :=
  match l with
  | c :: l' =>
      if p c then let (a, b) := span p l' in (c :: a, b) else ([], l)
  | [] => ([], [])
  end.

Definition parse_hex4 (l : list ascii) : option (N * list ascii) :=
  match l with
  | a :: b :: c :: d :: r =>
      match hex_value a, hex_value b, hex_value c, hex_value d with
      | Some x, Some y, Some z, Some w =>
          Some (x * 4096 + y * 256 + z * 16 + w, r)%N
      | _, _, _, _ => None
      end
  | _ => None
  end.

Definition simple_escape (d : ascii) : option ascii :=
  if eqc d dquote then Some dquote
  else if eqc d backslash then Some backslash
  else if eqc d "/" then Some "/"%char
  else if eqc d "b" then Some (char 8)
  else if eqc d "f" then Some (char 12)
  else if eqc d "n" then Some (char 10)
  else if eqc d "r" then Some (char 13)
  else if eqc d "t" then Some (char 9)
  else None.

Definition is_high (n : N) : bool := ((55296 <=? n) && (n <=? 56319))%N.
Definition is_low (n : N) : bool := ((56320 <=? n) && (n <=? 57343))%N.

(** The string that starts after an opening quote; [acc] holds what has
    been read, last byte first. *)
Fixpoint parse_string (fuel : nat) (acc l : list ascii)
  : option (string * list ascii) :=
  match fuel with
  | O => None
  | S f =>
      match l with
      | [] => None
      | c :: l' =>
          if eqc c dquote then Some (text (rev acc), l')
          else if eqc c backslash then
            match l' with
            | [] => None
            | d :: l'' =>
                if eqc d "u" then
                  match parse_hex4 l'' with
                  | None => None
                  | Some (n, r) =>
                      if is_high n then
                        match r with
                        | b1 :: u1 :: r1 =>
                            if eqc b1 backslash && eqc u1 "u" then
                              match parse_hex4 r1 with
                              | Some (m, r2) =>
                                  if is_low m then
                                    parse_string f
                                      (rev (utf8_encode
                                              (65536 + (n - 55296) * 1024
                                               + (m - 56320))%N) ++ acc)%list
                                      r2
                                  else None
                              | None => None
                              end
                            else None
                        | _ => None
                        end
                      else if is_low n || (n =? 0)%N then None
                      else parse_string f (rev (utf8_encode n) ++ acc)%list r
                  end
                else
                  match simple_escape d with
                  | Some x => parse_string f (x :: acc) l''
                  | None => None
                  end
            end
          else if (code c <? 32)%N then None
          else parse_string f (c :: acc) l'
      end
  end.

Definition starts_with (c : ascii) (l : list ascii) : bool :=
  match l with
  | d :: _ => eqc c d
  | [] => false
  end.

(** The literal of a number: an optional minus sign; a zero, or digits
    that do not start with zero; optionally a point and digits; optionally
    an exponent mark, a sign and digits. *)
Definition parse_number (l : list ascii) : option (string * list ascii) :=
  let (sign, l1) :=
    if starts_with "-" l then (["-"%char], tl l) else ([], l) in
  let (int, l2) := span is_digit l1 in
  match int with
  | [] => None
  | d :: ds =>
      if eqc d "0" && negb (match ds with [] => true | _ => false end)
      then None
      else
        let frac :=
          if starts_with "." l2 then
            let (fd, l3) := span is_digit (tl l2) in
            match fd with
            | [] => None
            | _ => Some ("."%char :: fd, l3)
            end
          else Some ([], l2) in
        match frac with
        | None => None
        | Some (fr, l3) =>
            if starts_with "e" l3 || starts_with "E" l3 then
              let l4 := tl l3 in
              let (es, l5) :=
                if starts_with "+" l4 then (["+"%char], tl l4)
                else if starts_with "-" l4 then (["-"%char], tl l4)
                else ([], l4) in
              let (ed, l6) := span is_digit l5 in
              match ed with
              | [] => None
              | _ =>
                  Some (text (sign ++ int ++ fr ++ firstn 1 l3 ++ es ++ ed)%list,
                        l6)
              end
            else Some (text (sign ++ int ++ fr)%list, l3)
        end
  end.

Fixpoint drop_prefix (p l : list ascii) : option (list ascii) :=
  match p, l with
  | [], _ => Some l
  | a :: p', b :: l' => if eqc a b then drop_prefix p' l' else None
  | _ :: _, [] => None
  end.

Fixpoint parse_value (fuel : nat) (l : list ascii) {struct fuel}
  : option (json * list ascii) :=
  match fuel with
  | O => None
  | S f =>
      match skip_ws l with
      | [] => None
      | c :: l' =>
          if eqc c "{" then
            if starts_with "}" (skip_ws l')
            then Some (JObject [], tl (skip_ws l'))
            else
              match parse_members f l' with
              | Some (ms, r) => Some (JObject ms, r)
              | None => None
              end
          else if eqc c "[" then
            if starts_with "]" (skip_ws l')
            then Some (JArray [], tl (skip_ws l'))
            else
              match parse_items f l' with
              | Some (vs, r) => Some (JArray vs, r)
              | None => None
              end
          else if eqc c dquote then
            match parse_string (List.length l') [] l' with
            | Some (s, r) => Some (JString s, r)
            | None => None
            end
          else if eqc c "t" then
            option_map (pair (JBool true)) (drop_prefix (chars "rue") l')
          else if eqc c "f" then
            option_map (pair (JBool false)) (drop_prefix (chars "alse") l')
          else if eqc c "n" then
            option_map (pair JNull) (drop_prefix (chars "ull") l')
          else
            match parse_number (c :: l') with
            | Some (lit, r) => Some (JNumber lit, r)
            | None => None
            end
      end
  end
with parse_items (fuel : nat) (l : list ascii) {struct fuel}
  : option (list json * list ascii) :=
  match fuel with
  | O => None
  | S f =>
      match parse_value f l with
      | None => None
      | Some (v, r) =>
          match skip_ws r with
          | c :: r' =>
              if eqc c "," then
                match parse_items f r' with
                | Some (vs, r'') => Some (v :: vs, r'')
                | None => None
                end
              else if eqc c "]" then Some ([v], r')
              else None
          | [] => None
          end
      end
  end
with parse_members (fuel : nat) (l : list ascii) {struct fuel}
  : option (list (string * json) * list ascii) :=
  match fuel with
  | O => None
  | S f =>
      match skip_ws l with
      | q :: l1 =>
          if eqc q dquote then
            match parse_string (List.length l1) [] l1 with
            | None => None
            | Some (k, l2) =>
                match skip_ws l2 with
                | colon :: l3 =>
                    if eqc colon ":" then
                      match parse_value f l3 with
                      | None => None
                      | Some (v, r) =>
                          match skip_ws r with
                          | c :: r' =>
                              if eqc c "," then
                                match parse_members f r' with
                                | Some (ms, r'') => Some ((k, v) :: ms, r'')
                                | None => None
                                end
                              else if eqc c "}" then Some ([(k, v)], r')
                              else None
                          | [] => None
                          end
                      end
                    else None
                | [] => None
                end
            end
          else None
      | [] => None
      end
  end.

(** Every call above gives up one unit of fuel and all but every second
    one also reads a character, so twice the length is enough
    ([json_in_any_fuel] below). *)
Definition json_in (s : string) : option json :=
  let l := chars s in
  match parse_value (2 * List.length l + 2) l with
  | Some (v, r) =>
      match skip_ws r with
      | [] => Some v
      | _ :: _ => None
      end
  | None => None
  end.

(** *** The text of a [json] value ([json_out], the cast to [text]) *)

Definition escape_byte (c : ascii) : string :=
  let n := code c in
  if (n =? 8)%N then "\b"
  else if (n =? 12)%N then "\f"
  else if (n =? 10)%N then "\n"
  else if (n =? 13)%N then "\r"
  else if (n =? 9)%N then "\t"
  else if (n =? 34)%N then String backslash (String dquote "")
  else if (n =? 92)%N then "\\"
  else if (n <? 32)%N then "\u" ++ hex4 n
  else String c "".

Definition escape_json (s : string) : string :=
  quoted (concat "" (map escape_byte (chars s))).

Definition json_out (v : json) : string := render escape_json v.

End Pg.

(** ** SQL values and the operators of the two [INSERT ... SELECT] statements

    A nullable value is an [option]: [None] is SQL NULL. *)

Module Sql.

Import Text.

Fixpoint lookup_last (k : string) (ms : list (string * json)) : option json :=
  match ms with
  | [] => None
  | (k', v) :: ms' =>
      match lookup_last k ms' with
      | Some w => Some w
      | None => if String.eqb k k' then Some v else None
      end
  end.

(** [j -> 'k']: the member [k] of an object, NULL for anything else *)
Definition arrow (j : option json) (k : string) : option json :=
  match j with
  | Some (JObject ms) => lookup_last k ms
  | _ => None
  end.

(** [j ->> 'k']: the same member as [text]; the JSON [null] gives NULL, a
    string gives its content, any other value its JSON text *)
Definition arrow_text (j : option json) (k : string) : option string :=
  match arrow j k with
  | None => None
  | Some JNull => None
  | Some (JString s) => Some s
  | Some v => Some (Pg.json_out v)
  end.

(** A [json] value where [text] is wanted: as an argument of [CONCAT] and
    when it is assigned to a [TEXT] column *)
Definition json_text (j : option json) : option string :=
  option_map Pg.json_out j.

(** [CONCAT]: NULL arguments are skipped, the result is never NULL *)
Definition CONCAT (args : list (option string)) : string :=
  concat "" (map (fun a => match a with Some t => t | None => "" end) args).

Definition opt_eqb {A : Type} (eqb : A -> A -> bool) (a b : option A) : bool :=
  match a, b with
  | Some x, Some y => eqb x y
  | None, None => true
  | _, _ => false
  end.

End Sql.

Notation "j --> k" := (Sql.arrow j k) (at level 40, left associativity).
Notation "j -->> k" := (Sql.arrow_text j k) (at level 40, left associativity).

(** ** The database [random_user_sample]

    A table that has not been created is [None]; a table is the list of its
    rows in the order a scan returns them. *)

Module Identity.
Record row : Type := mk { id : string; username : option string }.
End Identity.

Module Profile.
Record row : Type := mk {
  identity_id : string;
  date_of_birth : option Z;
  gender : option string;
  state : option string;
  city : option string;
  zip : option string;
  picture_url : option string;
  cell : option string }.

(** Two rows that [DISTINCT] keeps one of: equal column by column, NULL
    equal to NULL *)
Definition eqb (a b : row) : bool :=
  String.eqb (identity_id a) (identity_id b)
  && Sql.opt_eqb Z.eqb (date_of_birth a) (date_of_birth b)
  && Sql.opt_eqb String.eqb (gender a) (gender b)
  && Sql.opt_eqb String.eqb (state a) (state b)
  && Sql.opt_eqb String.eqb (city a) (city b)
  && Sql.opt_eqb String.eqb (zip a) (zip b)
  && Sql.opt_eqb String.eqb (picture_url a) (picture_url b)
  && Sql.opt_eqb String.eqb (cell a) (cell b).

Definition set_date_of_birth (t : option Z) (r : row) : row :=
  mk (identity_id r) t (gender r) (state r) (city r) (zip r)
     (picture_url r) (cell r).
End Profile.

Record database : Type := mkdb {
  api_results : option (list (option json));
  identities : option (list Identity.row);
  profiles : option (list Profile.row) }.

Definition no_tables : database := mkdb None None None.

Definition statement : Type := database -> outcome database.

(** *** The three [CREATE TABLE IF NOT EXISTS] statements *)

Definition create_api_results_table : statement := fun d =>
  match api_results d with
  | Some _ => Ok d
  | None => Ok (mkdb (Some []) (identities d) (profiles d))
  end.

Definition create_identities_table : statement := fun d =>
  match identities d with
  | Some _ => Ok d
  | None => Ok (mkdb (api_results d) (Some []) (profiles d))
  end.

(** [profiles] has a column that [REFERENCES identities(id)]: creating it
    needs [identities]. *)
Definition create_profiles_table : statement := fun d =>
  match profiles d with
  | Some _ => Ok d
  | None =>
      match identities d with
      | Some _ => Ok (mkdb (api_results d) (identities d) (Some []))
      | None => Raise UndefinedTable
      end
  end.

(** *** [populate_identities_table] *)

(** [CONCAT(data->'id'->'name', data->'id'->'value')] *)
Definition identity_key (data : option json) : string :=
  Sql.CONCAT [Sql.json_text (data --> "id" --> "name");
              Sql.json_text (data --> "id" --> "value")].

(** The row the [SELECT] gives for one row of [api_results]; the second
    column, [data->'login'->'username'], is a [json] value that the insert
    casts to the column's [TEXT]. *)
Definition identity_of (data : option json) : Identity.row :=
  Identity.mk (identity_key data)
              (Sql.json_text (data --> "login" --> "username")).

Definition has_id (k : string) (t : list Identity.row) : bool :=
  existsb (fun r => String.eqb k (Identity.id r)) t.

(** One row under [ON CONFLICT (id) DO NOTHING] *)
Definition insert_identity (t : list Identity.row) (r : Identity.row)
  : list Identity.row :=
  if has_id (Identity.id r) t then t else (t ++ [r])%list.

Definition populate_identities_table : statement := fun d =>
  match api_results d, identities d with
  | Some raw, Some t =>
      Ok (mkdb (api_results d)
               (Some (fold_left insert_identity (map identity_of raw) t))
               (profiles d))
  | _, _ => Raise UndefinedTable
  end.

(** *** [populate_profiles_table] *)

Definition dob_format : string := "YYYY-MM-DDTHH:MI:SSS.MSZ".

Definition has_identity_id (k : string) (t : list Profile.row) : bool :=
  existsb (fun r => String.eqb k (Profile.identity_id r)) t.

(** [SELECT DISTINCT]: of rows equal in every column the first stays *)
Definition distinct (rows : list Profile.row) : list Profile.row :=
  fold_left
    (fun acc r =>
       if existsb (Profile.eqb r) acc then acc else (acc ++ [r])%list)
    rows [].

(** One row under [ON CONFLICT (identity_id) DO NOTHING]; a row that is
    inserted must reference a row of [identities]. *)
Definition insert_profile (ids : list Identity.row)
  (t : outcome (list Profile.row)) (r : Profile.row)
  : outcome (list Profile.row) :=
  t <- t ;;
  if has_identity_id (Profile.identity_id r) t then Ok t
  else if has_id (Profile.identity_id r) ids then Ok (t ++ [r])%list
  else Raise IntegrityError.

Section Normalizer.

(** [to_timestamp(text, format)] is PostgreSQL's; how it reads a text
    under [dob_format] is left open.  It gives an instant, in microseconds,
    or rejects the text ([None]).  [at_session_zone] is the cast of that
    instant to the [TIMESTAMP] of the column. *)
Variable to_timestamp : string -> string -> option Z.
Variable at_session_zone : Z -> Z.

(** The function is strict: a NULL argument gives NULL without a call. *)
Definition to_timestamp_call (x : option string) (fmt : string)
  : outcome (option Z) :=
  match x with
  | None => Ok None
  | Some s =>
      match to_timestamp s fmt with
      | Some t => Ok (Some t)
      | None => Raise DataError
      end
  end.

(** The row the [SELECT] gives for one row of [api_results] *)
Definition profile_of (data : option json) : outcome Profile.row :=
  dob <- to_timestamp_call (data --> "dob" -->> "date") dob_format ;;
  Ok (Profile.mk (identity_key data)
                 dob
                 (data -->> "gender")
                 (data --> "location" -->> "state")
                 (data --> "location" -->> "city")
                 (data --> "location" -->> "zip")
                 (data --> "picture" -->> "large")
                 (data -->> "cell")).

(** The insert casts the timestamp column after [DISTINCT] has compared
    the rows of the [SELECT]. *)
Definition as_inserted (r : Profile.row) : Profile.row :=
  Profile.set_date_of_birth
    (option_map at_session_zone (Profile.date_of_birth r)) r.

Definition populate_profiles_table : statement := fun d =>
  match api_results d, profiles d with
  | Some raw, Some t =>
      rows <- mapM profile_of raw ;;
      t' <- fold_left
              (insert_profile (match identities d with
                               | Some ids => ids
                               | None => []
                               end))
              (map as_inserted (distinct rows)) (Ok t) ;;
      Ok (mkdb (api_results d) (identities d) (Some t'))
  | _, _ => Raise UndefinedTable
  end.

End Normalizer.

(** *** [cursor.copy_from(file, "api_results")]

    psycopg2 sends [COPY api_results FROM STDIN] with the tab as delimiter
    and [\N] as NULL marker, and then the content of the file. *)

Definition copy_row (line : list ascii) : outcome (option json) :=
  match Pg.split_raw Text.tab [] line with
  | [field] =>
      match Pg.copy_field field with
      | None => Ok None
      | Some t =>
          match Pg.json_in t with
          | Some j => Ok (Some j)
          | None => Raise DataError
          end
      end
  | _ => Raise DataError
  end.

Definition copy_from_api_results (file : string) : statement := fun d =>
  match api_results d with
  | Some t =>
      rows <- mapM copy_row (Pg.copy_lines (Text.chars file)) ;;
      Ok (mkdb (Some (t ++ rows)%list) (identities d) (profiles d))
  | None => Raise UndefinedTable
  end.

(** ** The stages of [main.py]

    A run threads the database and the list of the requests it has sent. *)

Record world : Type := mkworld {
  db : database;
  requests : list string }.

Definition M (A : Type) : Type := world -> world * outcome A.

Definition bindM {A B : Type} (m : M A) (f : A -> M B) : M B := fun w =>
  match m w with
  | (w', Ok a) => f a w'
  | (w', Raise e) => (w', Raise e)
  end.

Notation "x <~ m ;; k" := (bindM m (fun x => k))
  (at level 61, m at next level, right associativity).
Notation "m ;;; k" := (bindM m (fun _ => k))
  (at level 61, right associativity).

(** [with psycopg2.connect(dbname="random_user_sample") as conn:] with the
    statements the cursor executes.  Leaving the block commits; leaving it
    by an exception rolls back what the block has done. *)
Definition connect (body : list statement) : M unit := fun w =>
  match fold_left (fun d st => bind d st) body (Ok (db w)) with
  | Ok d => (mkworld d (requests w), Ok tt)
  | Raise e => (w, Raise e)
  end.

Definition setup_db : M unit :=
  connect [create_api_results_table;
           create_identities_table;
           create_profiles_table].

Definition load_users_into_api_results (users : json) : M unit :=
  connect [copy_from_api_results (Py.dumps users)].

(** [requests.get(url)]: the request raises, or gives a response with its
    status code and body.  The body is given by the value [Response.json()]
    returns, [None] when it is not JSON. *)
Inductive reply : Type :=
| NoReply
| Response (status_code : Z) (body : option json).

(** [v[k]] for a string [k] *)
Definition getitem (v : json) (k : string) : outcome json :=
  match v with
  | JObject ms =>
      match Sql.lookup_last k ms with
      | Some x => Ok x
      | None => Raise KeyError
      end
  | _ => Raise TypeError
  end.

Definition str (n : Z) : string := NilZero.string_of_int (Z.to_int n).

Definition default_amount : Z := 5000.

Section Main.

Variable http : string -> reply.
Variable to_timestamp : string -> string -> option Z.
Variable at_session_zone : Z -> Z.

Definition get_random_users (amount : Z) : M json := fun w =>
  let url := "https://randomuser.me/api/?results=" ++ str amount in
  (mkworld (db w) (requests w ++ [url])%list,
   match http url with
   | NoReply => Raise ConnectionError
   | Response _ None => Raise JSONDecodeError
   | Response _ (Some v) => getitem v "results"
   end).

Definition load_results_into_identities_and_profiles : M unit :=
  connect [populate_identities_table;
           populate_profiles_table to_timestamp at_session_zone].

(** The body of [main], for the count that [get_random_users] is called
    with. *)
Definition run (amount : Z) : M unit :=
  setup_db ;;;
  users <~ get_random_users amount ;;
  load_users_into_api_results users ;;;
  load_results_into_identities_and_profiles.

Definition main : M unit := run default_amount.

End Main.

(** ** The record of the module docstring

    The one element of ["results"] in the response that the docstring of
    [main.py] shows, and that response. *)

Definition sample_user : json :=
  JObject
    [("gender", JString "male");
     ("name", JObject [("title", JString "mr"); ("first", JString "brad");
                       ("last", JString "gibson")]);
     ("location",
      JObject [("street", JString "9278 new road");
               ("city", JString "kilcoole");
               ("state", JString "waterford");
               ("postcode", JString "93027");
               ("coordinates", JObject [("latitude", JString "20.9267");
                                        ("longitude", JString "-7.9310")]);
               ("timezone", JObject [("offset", JString "-3:30");
                                     ("description", JString "Newfoundland")])]);
     ("email", JString "brad.gibson@example.com");
     ("login",
      JObject [("uuid", JString "155e77ee-ba6d-486f-95ce-0e0c0fb4b919");
               ("username", JString "silverswan131");
               ("password", JString "firewall");
               ("salt", JString "TQA1Gz7x");
               ("md5", JString "dc523cb313b63dfe5be2140b0c05b3bc");
               ("sha1", JString "7a4aa07d1bedcc6bcf4b7f8856643492c191540d");
               ("sha256", JString "74364e96174afa7d17ee52dd2c9c7a4651fe1254f471a78bda0190135dcd3480")]);
     ("dob", JObject [("date", JString "1993-07-20T09:44:18.674Z");
                      ("age", JNumber "26")]);
     ("registered", JObject [("date", JString "2002-05-21T10:59:49.966Z");
                             ("age", JNumber "17")]);
     ("phone", JString "011-962-7516");
     ("cell", JString "081-454-0666");
     ("id", JObject [("name", JString "PPS"); ("value", JString "0390511T")]);
     ("picture",
      JObject [("large", JString "https://randomuser.me/api/portraits/men/75.jpg");
               ("medium", JString "https://randomuser.me/api/portraits/med/men/75.jpg");
               ("thumbnail", JString "https://randomuser.me/api/portraits/thumb/men/75.jpg")]);
     ("nat", JString "IE")].


Definition sample_response : json :=
  JObject [("results", JArray [sample_user]);
           ("info", JObject [("seed", JString "fea8be3e64777240");
                             ("results", JNumber "1");
                             ("page", JNumber "1");
                             ("version", JString "1.3")])].

Definition empty_response : json :=
  JObject [("results", JArray []);
           ("info", JObject [("seed", JString "fea8be3e64777240");
                             ("results", JNumber "0");
                             ("page", JNumber "1");
                             ("version", JString "1.3")])].

Definition fresh : world := mkworld no_tables [].

Definition empty_tables : database := mkdb (Some []) (Some []) (Some []).

(** ** Worlds for the examples

    The theorems hold for every [to_timestamp] and every session zone; the
    examples take one that accepts every text and a zone without offset. *)

Definition any_instant : string -> string -> option Z := fun _ _ => Some 0%Z.
Definition no_offset : Z -> Z := fun t => t.

(** A service that answers every request with status 200 and body [v] *)
Definition answers (v : json) : string -> reply :=
  fun _ => Response 200 (Some v).

(** A service that answers with status 500 and a body that has ["results"] *)
Definition answers_500 : string -> reply :=
  fun _ => Response 500 (Some empty_response).

(** Two records with the same [id] and different usernames *)
Definition twin (username : string) : json :=
  JObject [("login", JObject [("username", JString username)]);
           ("location", JObject [("city", JString "kilcoole");
                                 ("postcode", JNumber "93027")]);
           ("id", JObject [("name", JString "PPS");
                           ("value", JString "0390511T")])].

Definition twins : world :=
  mkworld (mkdb (Some [Some (twin "silverswan131"); Some (twin "bluefrog202")])
                (Some []) (Some []))
          [].

(** A [to_timestamp] that rejects every text, and one that accepts the date
    of the documented record only. *)
Definition no_instant : string -> string -> option Z := fun _ _ => None.

Definition sample_instant : string -> string -> option Z :=
  fun s _ =>
    if String.eqb s "1993-07-20T09:44:18.674Z" then Some 0%Z else None.

(** [twins] after a run of the Normalizer *)
Definition twins_normalized : world :=
  mkworld
    (mkdb (api_results (db twins))
          (Some [identity_of (Some (twin "silverswan131"))])
          (Some [Profile.mk (identity_key (Some (twin "silverswan131")))
                            None None None (Some "kilcoole") None None
                            None]))
    [].

(** A database that has been set up and loaded before *)
Definition initialized : world :=
  mkworld (mkdb (Some [Some sample_user])
                (Some [Identity.mk "PPS0390511T" (Some "silverswan131")])
                (Some []))
          ["https://randomuser.me/api/?results=1"].

(** The rows that [main] leaves for every list of records it loads *)
Definition null_identity : Identity.row := Identity.mk "" None.
Definition null_profile : Profile.row :=
  Profile.mk "" None None None None None None None.

(** ** What the properties speak of *)

(** A text without control characters, and a document whose number literals
    are such texts, as are the literals that [repr] prints. *)
Definition no_control (l : list ascii) : bool :=
  forallb (fun c => (32 <=? Text.code c)%N) l.

Fixpoint plain (v : json) : bool :=
  match v with
  | JNumber lit => no_control (Text.chars lit)
  | JArray items => forallb plain items
  | JObject ms => forallb (fun kv => plain (snd kv)) ms
  | _ => true
  end.


Definition rows {A : Type} (t : option (list A)) : list A :=
  match t with
  | Some l => l
  | None => []
  end.

(** How many rows of [identities] have the primary key [k] *)
Definition count_id (k : string) (t : list Identity.row) : nat :=
  List.length (filter (fun r => String.eqb k (Identity.id r)) t).

(** [id] is the primary key: no two rows of [identities] share it. *)
Definition primary_key (d : database) : Prop :=
  NoDup (map Identity.id (rows (identities d))).

(** Every row of [profiles] references a row of [identities]. *)
Definition referential_integrity (d : database) : Prop :=
  forall p, In p (rows (profiles d)) ->
    exists i, In i (rows (identities d))
              /\ Identity.id i = Profile.identity_id p.

Definition tables_exist (d : database) : Prop :=
  api_results d <> None /\ identities d <> None /\ profiles d <> None.

(** A record of the documented shape as far as [zip] goes: [location] is an
    object with a member [postcode] and without a member [zip]. *)
Definition documented_location (data : option json) : Prop :=
  exists ms, data --> "location" = Some (JObject ms)
             /\ In "postcode" (map fst ms) /\ ~ In "zip" (map fst ms).

(** A byte that [json.dumps] writes as it is and that neither [COPY] nor
    the reader of [json] treats specially: printable ASCII other than the
    double quote and the backslash. *)
Definition safe_char (c : ascii) : bool :=
  (32 <=? Text.code c)%N && (Text.code c <=? 126)%N
  && negb (Text.eqc c Text.dquote) && negb (Text.eqc c Text.backslash).

Definition safe_string (s : string) : bool :=
  forallb safe_char (Text.chars s).

(** A number literal of JSON: safe bytes that [Pg.parse_number] reads to the
    end. *)
Definition number_literal (lit : string) : bool :=
  safe_string lit
  && match Pg.parse_number (Text.chars lit) with
     | Some (l, []) => String.eqb l lit
     | _ => false
     end.

(** A document that goes through [json.dumps] and [COPY] unchanged: its
    strings and keys are safe and its numbers are number literals. *)
Fixpoint storable (v : json) : bool :=
  match v with
  | JNull | JBool _ => true
  | JNumber lit => number_literal lit
  | JString s => safe_string s
  | JArray items => forallb storable items
  | JObject ms =>
      forallb (fun kv => safe_string (fst kv) && storable (snd kv)) ms
  end.

(** A text that [COPY] takes as one field and leaves as it is: no control
    character and no backslash. *)
Definition clean (l : list ascii) : bool :=
  forallb (fun c => (32 <=? Text.code c)%N && negb (Text.eqc c Text.backslash))
          l.

(** What may follow a value inside a document: nothing, a comma or a closing
    bracket. *)
Definition stops (rest : list ascii) : bool :=
  match rest with
  | [] => true
  | c :: _ => Text.eqc c "," || Text.eqc c "]" || Text.eqc c "}"
  end.

(** [identity_id] is unique: no two rows of [profiles] share it. *)
Definition unique_identity_id (d : database) : Prop :=
  NoDup (map Profile.identity_id (rows (profiles d))).

(** How many rows of [profiles] reference the key [k] *)
Definition count_identity_id (k : string) (t : list Profile.row) : nat :=
  List.length (filter (fun r => String.eqb k (Profile.identity_id r)) t).




(** The stages as operations on the database, in any order and number; one
    that raises leaves the database as it was. *)
Inductive op : Type :=
| SetupDb
| Fetch (amount : Z)
| Load (users : json)
| Normalize
| Run (amount : Z).

Section Operations.

Variable http : string -> reply.
Variable to_timestamp : string -> string -> option Z.
Variable at_session_zone : Z -> Z.

Definition step (w : world) (o : op) : world :=
  match o with
  | SetupDb => fst (setup_db w)
  | Fetch amount => fst (get_random_users http amount w)
  | Load users => fst (load_users_into_api_results users w)
  | Normalize =>
      fst (load_results_into_identities_and_profiles
             to_timestamp at_session_zone w)
  | Run amount => fst (run http to_timestamp at_session_zone amount w)
  end.

Definition steps (ops : list op) (w : world) : world :=
  fold_left step ops w.

End Operations.

(* ================================================================== *)
(** * Properties *)

Local Open Scope list_scope.

(** ** Rows inserted under [ON CONFLICT DO NOTHING] *)

Section ConflictIgnore.

Lemma has_id_app k t1 t2 :
  has_id k (t1 ++ t2) = has_id k t1 || has_id k t2.
Proof. apply existsb_app. Qed.

Lemma has_id_In k t :
  has_id k t = true <-> In k (map Identity.id t).
Proof.
  unfold has_id. rewrite existsb_exists, in_map_iff. split.
  - intros (r & Hr & E). apply String.eqb_eq in E. eauto.
  - intros (r & E & Hr). exists r. split; [assumption|].
    apply String.eqb_eq. auto.
Qed.

Lemma insert_identity_keeps k t r :
  has_id k t = true -> has_id k (insert_identity t r) = true.
Proof.
  intros H. unfold insert_identity.
  destruct (has_id (Identity.id r) t); [assumption|].
  rewrite has_id_app, H. reflexivity.
Qed.

Lemma insert_identity_has t r :
  has_id (Identity.id r) (insert_identity t r) = true.
Proof.
  unfold insert_identity.
  destruct (has_id (Identity.id r) t) eqn:E; [assumption|].
  rewrite has_id_app. simpl. rewrite String.eqb_refl.
  apply orb_true_iff. right. reflexivity.
Qed.

Lemma fold_insert_identity_keeps k rs : forall t,
  has_id k t = true -> has_id k (fold_left insert_identity rs t) = true.
Proof.
  induction rs as [|r rs IH]; intros t H; simpl; [assumption|].
  apply IH, insert_identity_keeps, H.
Qed.

Lemma fold_insert_identity_has rs : forall t r,
  In r rs -> has_id (Identity.id r) (fold_left insert_identity rs t) = true.
Proof.
  induction rs as [|a rs IH]; intros t r Hin; simpl; [contradiction|].
  destruct Hin as [-> | Hin].
  - apply fold_insert_identity_keeps, insert_identity_has.
  - apply IH, Hin.
Qed.

Lemma fold_insert_identity_noop rs : forall t,
  (forall r, In r rs -> has_id (Identity.id r) t = true) ->
  fold_left insert_identity rs t = t.
Proof.
  induction rs as [|a rs IH]; intros t H; simpl; [reflexivity|].
  unfold insert_identity at 2. rewrite (H a (or_introl eq_refl)).
  apply IH. intros r Hr. apply H. right. exact Hr.
Qed.

Lemma fold_insert_identity_idem rs t :
  fold_left insert_identity rs (fold_left insert_identity rs t)
  = fold_left insert_identity rs t.
Proof.
  apply fold_insert_identity_noop. intros r Hr.
  apply fold_insert_identity_has, Hr.
Qed.

Lemma has_identity_id_app k t1 t2 :
  has_identity_id k (t1 ++ t2)
  = has_identity_id k t1 || has_identity_id k t2.
Proof. apply existsb_app. Qed.

Lemma fold_insert_profile_raise ids rs e :
  fold_left (insert_profile ids) rs (Raise e) = Raise e.
Proof. induction rs as [|r rs IH]; simpl; [reflexivity | exact IH]. Qed.

(** A fold that completes has only added rows, each of them one of [rs]
    with a referenced identity, and afterwards every key of [rs] is in
    the table. *)
Lemma fold_insert_profile_ok ids rs : forall t t',
  fold_left (insert_profile ids) rs (Ok t) = Ok t' ->
  (exists ext, t' = t ++ ext
               /\ forall p, In p ext ->
                    In p rs /\ has_id (Profile.identity_id p) ids = true)
  /\ (forall k, has_identity_id k t = true -> has_identity_id k t' = true)
  /\ (forall r, In r rs -> has_identity_id (Profile.identity_id r) t' = true).
Proof.
  induction rs as [|r rs IH]; intros t t' H; simpl in H.
  - injection H as <-. split; [|split].
    + exists []. rewrite app_nil_r. split; [reflexivity | contradiction].
    + auto.
    + contradiction.
  - destruct (has_identity_id (Profile.identity_id r) t) eqn:Hdup.
    + destruct (IH _ _ H) as ((ext & -> & Hext) & Hmono & Hall).
      split; [|split].
      * exists ext. split; [reflexivity|].
        intros p Hp. destruct (Hext p Hp). split; [right|]; assumption.
      * exact Hmono.
      * intros r' [<- | Hr']; [apply Hmono, Hdup | apply Hall, Hr'].
    + destruct (has_id (Profile.identity_id r) ids) eqn:Hfk.
      * destruct (IH _ _ H) as ((ext & -> & Hext) & Hmono & Hall).
        split; [|split].
        -- exists (r :: ext). rewrite <- app_assoc. split; [reflexivity|].
           intros p [<- | Hp]; [split; [left; reflexivity | exact Hfk]|].
           destruct (Hext p Hp). split; [right|]; assumption.
        -- intros k Hk. apply Hmono. rewrite has_identity_id_app, Hk.
           reflexivity.
        -- intros r' [<- | Hr']; [|apply Hall, Hr'].
           apply Hmono. rewrite has_identity_id_app. simpl.
           rewrite String.eqb_refl. apply orb_true_iff. right. reflexivity.
      * rewrite fold_insert_profile_raise in H. discriminate.
Qed.

Lemma fold_insert_profile_noop ids rs : forall t,
  (forall r, In r rs -> has_identity_id (Profile.identity_id r) t = true) ->
  fold_left (insert_profile ids) rs (Ok t) = Ok t.
Proof.
  induction rs as [|a rs IH]; intros t H; simpl; [reflexivity|].
  rewrite (H a (or_introl eq_refl)). apply IH.
  intros r Hr. apply H. right. exact Hr.
Qed.

End ConflictIgnore.

(** ** The block of a connection *)

Section Connect.

Lemma fold_bind_raise (body : list statement) e :
  fold_left (fun d st => bind d st) body (Raise e) = Raise e.
Proof. induction body as [|st body IH]; simpl; [reflexivity | exact IH]. Qed.

(** A block that raises has changed nothing, and no block sends a request. *)
Lemma connect_raise body w w' e :
  connect body w = (w', Raise e) -> w' = w.
Proof.
  unfold connect.
  destruct (fold_left _ body _); intros H; inversion H; reflexivity.
Qed.

Lemma connect_requests body w :
  requests (fst (connect body w)) = requests w.
Proof.
  unfold connect. destruct (fold_left _ body _); reflexivity.
Qed.

Lemma connect_one st w :
  connect [st] w
  = match st (db w) with
    | Ok d => (mkworld d (requests w), Ok tt)
    | Raise e => (w, Raise e)
    end.
Proof. reflexivity. Qed.

Lemma connect_two st1 st2 w :
  connect [st1; st2] w
  = match st1 (db w) with
    | Ok d1 =>
        match st2 d1 with
        | Ok d2 => (mkworld d2 (requests w), Ok tt)
        | Raise e => (w, Raise e)
        end
    | Raise e => (w, Raise e)
    end.
Proof.
  unfold connect. simpl. destruct (st1 (db w)); reflexivity.
Qed.

End Connect.

(** ** The two statements of the Normalizer *)

Section NormalizerFacts.

Variable to_timestamp : string -> string -> option Z.
Variable at_session_zone : Z -> Z.

Let normalize :=
  load_results_into_identities_and_profiles to_timestamp at_session_zone.

Lemma mapM_ok {A B : Type} (f : A -> outcome B) : forall l bs,
  mapM f l = Ok bs -> Forall2 (fun a b => f a = Ok b) l bs.
Proof.
  induction l as [|a l IH]; simpl; intros bs H.
  - injection H as <-. constructor.
  - destruct (f a) eqn:Ea; simpl in H; [|discriminate].
    destruct (mapM f l) eqn:El; simpl in H; [|discriminate].
    injection H as <-. constructor; [exact Ea | apply IH; reflexivity].
Qed.

(** What a run of the Normalizer that completes has done. *)
Lemma normalize_ok w w1 :
  normalize w = (w1, Ok tt) ->
  exists raw ids t derived t1,
    api_results (db w) = Some raw
    /\ identities (db w) = Some ids
    /\ profiles (db w) = Some t
    /\ mapM (profile_of to_timestamp) raw = Ok derived
    /\ fold_left
         (insert_profile (fold_left insert_identity (map identity_of raw) ids))
         (map (as_inserted at_session_zone) (distinct derived)) (Ok t)
       = Ok t1
    /\ w1 = mkworld
              (mkdb (Some raw)
                    (Some (fold_left insert_identity (map identity_of raw) ids))
                    (Some t1))
              (requests w).
Proof.
  unfold normalize, load_results_into_identities_and_profiles.
  rewrite connect_two. unfold populate_identities_table.
  destruct (api_results (db w)) as [raw|] eqn:Eraw; [|discriminate].
  destruct (identities (db w)) as [ids|] eqn:Eids; [|discriminate].
  unfold populate_profiles_table. simpl.
  destruct (profiles (db w)) as [t|] eqn:Et; [|discriminate].
  destruct (mapM (profile_of to_timestamp) raw) as [derived|] eqn:Ed;
    simpl; [|discriminate].
  destruct (fold_left _ _ (Ok t)) as [t1|] eqn:Ef; simpl; [|discriminate].
  intros H. injection H as <-.
  exists raw, ids, t, derived, t1. repeat split; assumption || reflexivity.
Qed.

Lemma normalize_raise w w1 e :
  normalize w = (w1, Raise e) -> w1 = w.
Proof. apply connect_raise. Qed.

Lemma normalize_again w w1 :
  normalize w = (w1, Ok tt) -> normalize w1 = (w1, Ok tt).
Proof.
  intros H.
  destruct (normalize_ok _ _ H)
    as (raw & ids & t & derived & t1 & _ & _ & _ & Ed & Ef & ->).
  unfold normalize, load_results_into_identities_and_profiles.
  rewrite connect_two. unfold populate_identities_table. simpl.
  rewrite fold_insert_identity_idem.
  unfold populate_profiles_table. simpl. rewrite Ed. simpl.
  rewrite fold_insert_profile_noop; [reflexivity|].
  apply (fold_insert_profile_ok _ _ _ _ Ef).
Qed.

End NormalizerFacts.

(** C3: whatever [api_results] holds, a second run of the Normalizer right
    after a first one ends as the first one did and leaves the database as
    the first one left it: it inserts nothing, so [identities] and [profiles]
    keep the row counts they had after one run. *)
Theorem normalizer_twice_is_once :
  forall (to_timestamp : string -> string -> option Z)
         (at_session_zone : Z -> Z) (w : world),
    let normalize :=
      load_results_into_identities_and_profiles to_timestamp at_session_zone in
    normalize (fst (normalize w)) = normalize w
    /\ List.length (rows (identities (db (fst (normalize (fst (normalize w)))))))
       = List.length (rows (identities (db (fst (normalize w)))))
    /\ List.length (rows (profiles (db (fst (normalize (fst (normalize w)))))))
       = List.length (rows (profiles (db (fst (normalize w))))).
Proof.
  intros ts az w normalize.
  assert (E : normalize (fst (normalize w)) = normalize w).
  { destruct (normalize w) as [w1 [[]|e]] eqn:H; simpl.
    - exact (normalize_again _ _ _ _ H).
    - assert (w1 = w) by exact (normalize_raise _ _ _ _ _ H).
      subst w1. exact H. }
  rewrite E. auto.
Qed.

(** C8: when the three tables exist, [setup_db] raises nothing and leaves
    the database, tables and rows, exactly as it was. *)
Theorem setup_db_again_is_noop :
  forall w : world, tables_exist (db w) -> setup_db w = (w, Ok tt).
Proof.
  intros [[[raw|] [ids|] [t|]] reqs] (Ha & Hi & Hp); simpl in *;
    try congruence.
  reflexivity.
Qed.

Lemma setup_db_again_is_noop_witness :
  tables_exist (db initialized) /\ setup_db initialized = (initialized, Ok tt).
Proof.
  assert (H : tables_exist (db initialized)).
  { unfold tables_exist; simpl; repeat split; discriminate. }
  split; [exact H | exact (setup_db_again_is_noop initialized H)].
Defined.

(** C9: the Raw Loader only adds rows after the rows [api_results] has, and
    the Normalizer leaves [api_results] as it is; this holds whether the
    stage completes or raises. *)
Theorem raw_records_are_append_only :
  forall (to_timestamp : string -> string -> option Z)
         (at_session_zone : Z -> Z) (users : json) (w : world),
    (exists added,
        api_results (db (fst (load_users_into_api_results users w)))
        = option_map (fun t => t ++ added) (api_results (db w)))
    /\ api_results
         (db (fst (load_results_into_identities_and_profiles
                     to_timestamp at_session_zone w)))
       = api_results (db w).
Proof.
  intros ts az users w. split.
  - unfold load_users_into_api_results. rewrite connect_one.
    unfold copy_from_api_results.
    destruct (api_results (db w)) as [t|] eqn:Et.
    + destruct (mapM copy_row _) as [added|e]; simpl.
      * exists added. reflexivity.
      * exists []. rewrite Et. simpl. rewrite app_nil_r. reflexivity.
    + exists []. simpl. rewrite Et. reflexivity.
  - destruct (load_results_into_identities_and_profiles ts az w)
      as [w1 [[]|e]] eqn:H; simpl.
    + destruct (normalize_ok _ _ _ _ H)
        as (raw & ids & t & derived & t1 & Er & _ & _ & _ & _ & ->).
      simpl. symmetry. exact Er.
    + rewrite (normalize_raise _ _ _ _ _ H). reflexivity.
Qed.

(** ** What each stage does to [identities] and [profiles] *)

Section Frames.

Variable http : string -> reply.
Variable to_timestamp : string -> string -> option Z.
Variable at_session_zone : Z -> Z.

Let normalize :=
  load_results_into_identities_and_profiles to_timestamp at_session_zone.

Lemma fold_insert_identity_extends rs : forall t,
  exists ext, fold_left insert_identity rs t = t ++ ext.
Proof.
  induction rs as [|r rs IH]; intros t; simpl.
  - exists []. rewrite app_nil_r. reflexivity.
  - unfold insert_identity at 2.
    destruct (has_id (Identity.id r) t); [apply IH|].
    destruct (IH (t ++ [r])) as (ext & ->).
    exists (r :: ext). rewrite <- app_assoc. reflexivity.
Qed.

Lemma insert_identity_nodup t r :
  NoDup (map Identity.id t) ->
  NoDup (map Identity.id (insert_identity t r)).
Proof.
  intros H. unfold insert_identity.
  destruct (has_id (Identity.id r) t) eqn:E; [exact H|].
  rewrite map_app. apply NoDup_app; [exact H | |].
  - simpl. constructor; [intros [] | constructor].
  - intros k Hk [<- | []].
    apply has_id_In in Hk. congruence.
Qed.

Lemma fold_insert_identity_nodup rs : forall t,
  NoDup (map Identity.id t) ->
  NoDup (map Identity.id (fold_left insert_identity rs t)).
Proof.
  induction rs as [|r rs IH]; intros t H; simpl; [exact H|].
  apply IH, insert_identity_nodup, H.
Qed.

Lemma count_id_nodup k : forall t,
  NoDup (map Identity.id t) -> has_id k t = true -> count_id k t = 1.
Proof.
  unfold count_id.
  induction t as [|r t IH]; simpl; intros Hnd Hk; [discriminate|].
  inversion Hnd as [|? ? Hnotin Hnd']; subst.
  destruct (String.eqb k (Identity.id r)) eqn:E; simpl.
  - apply String.eqb_eq in E. subst k. f_equal.
    destruct (filter _ t) as [|x l] eqn:F; [reflexivity|].
    exfalso. apply Hnotin.
    assert (Hx : In x (filter (fun r0 => String.eqb (Identity.id r) (Identity.id r0)) t))
      by (rewrite F; left; reflexivity).
    apply filter_In in Hx. destruct Hx as (Hx & Ex).
    apply String.eqb_eq in Ex. rewrite Ex. apply in_map, Hx.
  - apply IH; assumption.
Qed.

Lemma setup_db_rows w :
  rows (identities (db (fst (setup_db w)))) = rows (identities (db w))
  /\ rows (profiles (db (fst (setup_db w)))) = rows (profiles (db w))
  /\ rows (api_results (db (fst (setup_db w)))) = rows (api_results (db w)).
Proof.
  destruct w as [[[raw|] [ids|] [t|]] reqs]; repeat split; reflexivity.
Qed.

Lemma setup_db_creates w :
  setup_db w = (fst (setup_db w), Ok tt) /\ tables_exist (db (fst (setup_db w))).
Proof.
  destruct w as [[[raw|] [ids|] [t|]] reqs]; (split; [reflexivity|]);
    unfold tables_exist; simpl; repeat split; discriminate.
Qed.

Lemma get_random_users_db amount w :
  db (fst (get_random_users http amount w)) = db w.
Proof. reflexivity. Qed.

Lemma load_keeps_derived users w :
  identities (db (fst (load_users_into_api_results users w)))
  = identities (db w)
  /\ profiles (db (fst (load_users_into_api_results users w)))
     = profiles (db w).
Proof.
  unfold load_users_into_api_results. rewrite connect_one.
  unfold copy_from_api_results.
  destruct (api_results (db w)); [|split; reflexivity].
  destruct (mapM copy_row _); split; reflexivity.
Qed.

Lemma bindM_fst {A B : Type} (P : world -> Prop) (m : M A) (f : A -> M B) w :
  P (fst (m w)) ->
  (forall a w', P w' -> P (fst (f a w'))) ->
  P (fst (bindM m f w)).
Proof.
  unfold bindM. destruct (m w) as [w' [a|e]]; simpl; auto.
Qed.

Lemma normalize_integrity w :
  referential_integrity (db w) ->
  referential_integrity (db (fst (normalize w))).
Proof.
  intros H. destruct (normalize w) as [w1 [[]|e]] eqn:E; simpl.
  - destruct (normalize_ok _ _ _ _ E)
      as (raw & ids & t & derived & t1 & _ & Ei & Et & _ & Ef & ->).
    destruct (fold_insert_profile_ok _ _ _ _ Ef) as ((ext & -> & Hext) & _).
    destruct (fold_insert_identity_extends (map identity_of raw) ids)
      as (more & Hmore).
    unfold referential_integrity in *. simpl. rewrite Ei, Et in H. simpl in H.
    intros p Hp. apply in_app_or in Hp. destruct Hp as [Hp | Hp].
    + destruct (H p Hp) as (i & Hi & Eid). exists i. split; [|exact Eid].
      rewrite Hmore. apply in_or_app. left. exact Hi.
    + destruct (Hext p Hp) as (_ & Hfk).
      apply has_id_In, in_map_iff in Hfk. destruct Hfk as (i & Eid & Hi).
      exists i. split; assumption.
  - rewrite (normalize_raise _ _ _ _ _ E). exact H.
Qed.

Lemma step_integrity w o :
  referential_integrity (db w) ->
  referential_integrity (db (step http to_timestamp at_session_zone w o)).
Proof.
  assert (Hsetup : forall w', referential_integrity (db w') ->
                     referential_integrity (db (fst (setup_db w')))).
  { intros w' H. unfold referential_integrity.
    destruct (setup_db_rows w') as (-> & -> & _). exact H. }
  assert (Hload : forall users w', referential_integrity (db w') ->
            referential_integrity
              (db (fst (load_users_into_api_results users w')))).
  { intros users w' H. unfold referential_integrity.
    destruct (load_keeps_derived users w') as (-> & ->). exact H. }
  intros H. destruct o as [|amount|users| |amount]; simpl.
  - apply Hsetup, H.
  - exact H.
  - apply Hload, H.
  - apply normalize_integrity, H.
  - unfold run.
    apply (bindM_fst (fun w' => referential_integrity (db w')));
      [apply Hsetup, H|].
    intros _ w1 H1.
    apply (bindM_fst (fun w' => referential_integrity (db w')));
      [exact H1|].
    intros users w2 H2.
    apply (bindM_fst (fun w' => referential_integrity (db w')));
      [apply Hload, H2|].
    intros _ w3 H3. apply normalize_integrity, H3.
Qed.

End Frames.

(** C4: referential integrity is kept by every sequence of stages, whatever
    the service answers and whichever stages raise: if every row of
    [profiles] references a row of [identities] before, as in a database
    without tables or rows, then so does every row afterwards. *)
Theorem referential_integrity_is_invariant :
  forall (http : string -> reply)
         (to_timestamp : string -> string -> option Z)
         (at_session_zone : Z -> Z) (ops : list op) (w : world),
    referential_integrity (db w) ->
    referential_integrity (db (steps http to_timestamp at_session_zone ops w)).
Proof.
  intros http ts az ops. unfold steps.
  induction ops as [|o ops IH]; intros w H; simpl; [exact H|].
  apply IH, step_integrity, H.
Qed.

(** ** Keys and columns of the derived rows *)

Section Derived.

Variable to_timestamp : string -> string -> option Z.
Variable at_session_zone : Z -> Z.

Let normalize :=
  load_results_into_identities_and_profiles to_timestamp at_session_zone.

Lemma lookup_last_absent k : forall ms,
  ~ In k (map fst ms) -> Sql.lookup_last k ms = None.
Proof.
  induction ms as [|[k' v] ms IH]; simpl; intros H; [reflexivity|].
  rewrite IH by tauto.
  destruct (String.eqb k k') eqn:E; [|reflexivity].
  apply String.eqb_eq in E. exfalso. apply H. left. auto.
Qed.

Lemma distinct_subset (l : list Profile.row) p :
  In p (distinct l) -> In p l.
Proof.
  unfold distinct.
  assert (G : forall acc, In p (fold_left
              (fun acc r =>
                 if existsb (Profile.eqb r) acc then acc else acc ++ [r])
              l acc) -> In p acc \/ In p l).
  { induction l as [|r l IH]; simpl; intros acc H; [left; exact H|].
    apply IH in H. destruct H as [H | H]; [|right; right; exact H].
    destruct (existsb (Profile.eqb r) acc); [left; exact H|].
    apply in_app_or in H. destruct H as [H | [<- | []]];
      [left; exact H | right; left; reflexivity]. }
  intros H. destruct (G [] H) as [[] | H']. exact H'.
Qed.

Lemma profile_of_zip data p :
  documented_location data ->
  profile_of to_timestamp data = Ok p -> Profile.zip p = None.
Proof.
  intros (ms & Eloc & _ & Hzip). unfold profile_of.
  destruct (to_timestamp_call _ _ _); simpl; [|discriminate].
  intros H. injection H as <-. simpl.
  unfold Sql.arrow_text. rewrite Eloc. simpl.
  rewrite (lookup_last_absent _ _ Hzip). reflexivity.
Qed.

Lemma derived_rows raw derived :
  mapM (profile_of to_timestamp) raw = Ok derived ->
  forall p, In p derived ->
    exists data, In data raw /\ profile_of to_timestamp data = Ok p.
Proof.
  intros H. apply mapM_ok in H.
  induction H as [|data q raw derived Hq _ IH]; intros p Hp; [destruct Hp|].
  destruct Hp as [<- | Hp].
  - exists data. split; [left; reflexivity | exact Hq].
  - destruct (IH p Hp) as (d & Hd & E). exists d. split; [right|]; assumption.
Qed.

End Derived.

Section ForeignKey.

Variable to_timestamp : string -> string -> option Z.
Variable at_session_zone : Z -> Z.

Lemma profile_of_key data p :
  profile_of to_timestamp data = Ok p ->
  Profile.identity_id p = identity_key data.
Proof.
  unfold profile_of. destruct (to_timestamp_call _ _ _); simpl; [|discriminate].
  intros H. injection H as <-. reflexivity.
Qed.

Lemma fold_insert_profile_completes ids rs : forall t,
  (forall r, In r rs -> has_id (Profile.identity_id r) ids = true) ->
  exists t', fold_left (insert_profile ids) rs (Ok t) = Ok t'.
Proof.
  induction rs as [|r rs IH]; intros t H; simpl; [eauto|].
  destruct (has_identity_id (Profile.identity_id r) t).
  - apply IH. intros r' Hr'. apply H. right. exact Hr'.
  - rewrite (H r (or_introl eq_refl)). apply IH.
    intros r' Hr'. apply H. right. exact Hr'.
Qed.

(** The second statement only inserts keys that the first one has put in
    [identities]: the Normalizer never fails on the reference.  It raises
    when a table is missing or [to_timestamp] rejects a date, and only
    then. *)
Lemma normalizer_raises w w1 e :
  load_results_into_identities_and_profiles to_timestamp at_session_zone w
  = (w1, Raise e) ->
  e = UndefinedTable \/ e = DataError.
Proof.
  unfold load_results_into_identities_and_profiles. rewrite connect_two.
  unfold populate_identities_table.
  destruct (api_results (db w)) as [raw|] eqn:Er;
    [|intros H; injection H as _ <-; auto].
  destruct (identities (db w)) as [ids|] eqn:Ei;
    [|intros H; injection H as _ <-; auto].
  unfold populate_profiles_table. cbn [api_results identities profiles].
  destruct (profiles (db w)) as [t|]; [|intros H; injection H as _ <-; auto].
  destruct (mapM (profile_of to_timestamp) raw) as [derived|e'] eqn:Ed.
  - cbn [bind].
    destruct (fold_insert_profile_completes
                (fold_left insert_identity (map identity_of raw) ids)
                (map (as_inserted at_session_zone) (distinct derived)) t)
      as (t' & ->); [|discriminate].
    intros r Hr. apply in_map_iff in Hr. destruct Hr as (q & <- & Hq).
    apply distinct_subset in Hq.
    destruct (derived_rows _ _ _ Ed q Hq) as (data & Hdata & Eq).
    change (Profile.identity_id (as_inserted at_session_zone q))
      with (Profile.identity_id q).
    rewrite (profile_of_key _ _ Eq).
    change (identity_key data) with (Identity.id (identity_of data)).
    apply fold_insert_identity_has, in_map, Hdata.
  - cbn [bind]. intros H. injection H as _ <-. right.
    clear - Ed. revert e' Ed.
    induction raw as [|data raw IH]; simpl; intros e' Ed; [discriminate|].
    destruct (profile_of to_timestamp data) eqn:Ep; simpl in Ed.
    + destruct (mapM (profile_of to_timestamp) raw) as [|e1]; simpl in Ed;
        [discriminate|].
      injection Ed as <-. apply (IH e1). reflexivity.
    + injection Ed as <-. unfold profile_of, to_timestamp_call in Ep.
      destruct (data --> "dob" -->> "date"); simpl in Ep; [|discriminate].
      destruct (to_timestamp _ _); simpl in Ep; [discriminate|].
      injection Ep as <-. reflexivity.
Qed.

(** With a row that holds the documented record itself, the key and the
    username are the texts of [json] values, quotes included: the statements
    take them with [->], the other columns with [->>]. *)
Lemma rows_derived_from_the_documented_record t :
  to_timestamp "1993-07-20T09:44:18.674Z" dob_format = Some t ->
  identity_of (Some sample_user)
  = Identity.mk (Text.quoted "PPS" ++ Text.quoted "0390511T")%string
                (Some (Text.quoted "silverswan131"))
  /\ profile_of to_timestamp (Some sample_user)
     = Ok (Profile.mk (Text.quoted "PPS" ++ Text.quoted "0390511T")%string
                      (Some t) (Some "male"%string) (Some "waterford"%string)
                      (Some "kilcoole"%string) None
                      (Some "https://randomuser.me/api/portraits/men/75.jpg"%string)
                      (Some "081-454-0666"%string)).
Proof.
  intros H. split; [vm_compute; reflexivity|].
  unfold profile_of.
  change (Some sample_user --> "dob" -->> "date")
    with (Some "1993-07-20T09:44:18.674Z"%string).
  unfold to_timestamp_call. rewrite H. vm_compute. reflexivity.
Qed.

End ForeignKey.

(** C7: when [api_results] holds two records with the same derived key and
    different usernames, a run of the Normalizer that completes leaves
    exactly one row of [identities] with that key (the primary key holding
    before the run). *)
Theorem one_identity_per_key :
  forall (to_timestamp : string -> string -> option Z)
         (at_session_zone : Z -> Z) (w w1 : world)
         (r1 r2 : option json) (k : string),
    primary_key (db w) ->
    In r1 (rows (api_results (db w))) ->
    In r2 (rows (api_results (db w))) ->
    identity_key r1 = k ->
    identity_key r2 = k ->
    Identity.username (identity_of r1) <> Identity.username (identity_of r2) ->
    load_results_into_identities_and_profiles to_timestamp at_session_zone w
    = (w1, Ok tt) ->
    count_id k (rows (identities (db w1))) = 1 /\ primary_key (db w1).
Proof.
  intros ts az w w1 r1 r2 k Hpk H1 _ E1 _ _ H.
  destruct (normalize_ok _ _ _ _ H)
    as (raw & ids & t & derived & t1 & Er & Ei & _ & _ & _ & ->).
  unfold primary_key in *. rewrite Ei in Hpk. rewrite Er in H1. simpl in *.
  assert (Hnd := fold_insert_identity_nodup (map identity_of raw) ids Hpk).
  split; [|exact Hnd].
  apply count_id_nodup; [exact Hnd|].
  subst k. change (identity_key r1) with (Identity.id (identity_of r1)).
  apply fold_insert_identity_has, in_map, H1.
Qed.

(** C10: every row that a run of the Normalizer adds to [profiles] has a
    NULL [zip] when the records of [api_results] have the documented shape,
    a [location] object with [postcode] and without [zip]; and so has the
    row that the [SELECT] derives from any such record. *)
Theorem documented_records_get_null_zip :
  forall (to_timestamp : string -> string -> option Z)
         (at_session_zone : Z -> Z) (w w1 : world),
    (forall data, In data (rows (api_results (db w))) ->
                  documented_location data) ->
    load_results_into_identities_and_profiles to_timestamp at_session_zone w
    = (w1, Ok tt) ->
    (forall data p, In data (rows (api_results (db w))) ->
                    profile_of to_timestamp data = Ok p ->
                    Profile.zip p = None)
    /\ exists added,
         rows (profiles (db w1)) = rows (profiles (db w)) ++ added
         /\ forall p, In p added -> Profile.zip p = None.
Proof.
  intros ts az w w1 Hdoc H. split.
  - intros data p Hd. apply profile_of_zip, Hdoc, Hd.
  - destruct (normalize_ok _ _ _ _ H)
      as (raw & ids & t & derived & t1 & Er & _ & Et & Ed & Ef & ->).
    destruct (fold_insert_profile_ok _ _ _ _ Ef) as ((ext & -> & Hext) & _).
    rewrite Er in Hdoc. rewrite Et. simpl in *.
    exists ext. split; [reflexivity|].
    intros p Hp. destruct (Hext p Hp) as (Hin & _).
    apply in_map_iff in Hin. destruct Hin as (q & <- & Hq).
    apply distinct_subset in Hq.
    destruct (derived_rows _ _ _ Ed q Hq) as (data & Hdata & Eq).
    simpl. exact (profile_of_zip _ _ _ (Hdoc data Hdata) Eq).
Qed.

Lemma referential_integrity_is_invariant_witness :
  referential_integrity (db fresh)
  /\ referential_integrity
       (db (steps (answers sample_response) any_instant no_offset
              [Run 1; Normalize; Load (JArray [twin "bluefrog202"]);
               SetupDb; Normalize]
              fresh)).
Proof.
  assert (H : referential_integrity (db fresh)).
  { intros p Hp. simpl in Hp. contradiction. }
  split; [exact H|].
  exact (referential_integrity_is_invariant
           (answers sample_response) any_instant no_offset _ fresh H).
Defined.

Lemma one_identity_per_key_witness :
  primary_key (db twins)
  /\ load_results_into_identities_and_profiles any_instant no_offset twins
     = (mkworld
          (mkdb (api_results (db twins))
                (Some [identity_of (Some (twin "silverswan131"))])
                (Some [Profile.mk (identity_key (Some (twin "silverswan131")))
                         None None None (Some "kilcoole") None None None]))
          [],
        Ok tt)
  /\ count_id (identity_key (Some (twin "silverswan131")))
       [identity_of (Some (twin "silverswan131"))] = 1.
Proof.
  assert (Hpk : primary_key (db twins)) by (unfold primary_key; simpl; constructor).
  assert (Hrun : load_results_into_identities_and_profiles
                   any_instant no_offset twins
                 = (mkworld
                      (mkdb (api_results (db twins))
                         (Some [identity_of (Some (twin "silverswan131"))])
                         (Some [Profile.mk
                                  (identity_key (Some (twin "silverswan131")))
                                  None None None (Some "kilcoole") None None
                                  None]))
                      [],
                    Ok tt)) by (vm_compute; reflexivity).
  split; [exact Hpk|]. split; [exact Hrun|].
  refine (proj1 (one_identity_per_key any_instant no_offset twins _
                   (Some (twin "silverswan131")) (Some (twin "bluefrog202"))
                   _ Hpk _ _ eq_refl _ _ Hrun)).
  - simpl. left. reflexivity.
  - simpl. right. left. reflexivity.
  - vm_compute. reflexivity.
  - vm_compute. discriminate.
Defined.

Lemma documented_records_get_null_zip_witness :
  (forall data, In data (rows (api_results (db twins))) ->
                documented_location data)
  /\ exists w1,
       load_results_into_identities_and_profiles any_instant no_offset twins
       = (w1, Ok tt)
       /\ exists added,
            rows (profiles (db w1)) = rows (profiles (db twins)) ++ added
            /\ forall p, In p added -> Profile.zip p = None.
Proof.
  assert (Hdoc : forall data, In data (rows (api_results (db twins))) ->
                              documented_location data).
  { intros data [<- | [<- | []]];
      (eexists; split; [reflexivity|]; split;
       [simpl; tauto | simpl; intros [H | [H | []]]; discriminate]). }
  split; [exact Hdoc|].
  eexists. split; [vm_compute; reflexivity|].
  refine (proj2 (documented_records_get_null_zip any_instant no_offset twins _
                   Hdoc _)).
  vm_compute. reflexivity.
Defined.

(** ** The Fetcher and the run *)

Section FetcherFacts.

Variable http : string -> reply.
Variable to_timestamp : string -> string -> option Z.
Variable at_session_zone : Z -> Z.

Lemma setup_db_requests w : requests (fst (setup_db w)) = requests w.
Proof. apply connect_requests. Qed.

(** A run in which the Fetcher raises ends there: the tables have been
    created, nothing is loaded and nothing is derived. *)
Lemma run_aborts amount w e :
  snd (get_random_users http amount w) = Raise e ->
  run http to_timestamp at_session_zone amount w
  = (mkworld (db (fst (setup_db w)))
             (requests w
              ++ ["https://randomuser.me/api/?results=" ++ str amount]%string),
     Raise e).
Proof.
  intros H. unfold run, bindM at 1.
  destruct (setup_db_creates w) as (-> & _).
  unfold bindM at 1. unfold get_random_users in *. simpl in *.
  rewrite H, setup_db_requests. reflexivity.
Qed.

End FetcherFacts.

(** C5, as the code has it: the Fetcher sends one request and never a second
    one; when the request fails, when the body is not JSON and when the
    document has no ["results"], it raises, and the run ends with that
    exception after [setup_db], with nothing loaded or derived.  The status
    code is not looked at: a response with a JSON body gives the
    ["results"] of the body, whatever its status. *)
Theorem fetcher_errors_abort_the_run :
  forall (http : string -> reply)
         (to_timestamp : string -> string -> option Z)
         (at_session_zone : Z -> Z) (amount : Z) (w : world),
    let url := ("https://randomuser.me/api/?results=" ++ str amount)%string in
    let fetched := get_random_users http amount w in
    fst fetched = mkworld (db w) (requests w ++ [url])
    /\ (http url = NoReply -> snd fetched = Raise ConnectionError)
    /\ (forall status,
          http url = Response status None ->
          snd fetched = Raise JSONDecodeError)
    /\ (forall status v,
          http url = Response status (Some v) ->
          snd fetched = getitem v "results"
          /\ (forall ms, v = JObject ms -> ~ In "results" (map fst ms) ->
                         snd fetched = Raise KeyError))
    /\ (forall e,
          snd fetched = Raise e ->
          run http to_timestamp at_session_zone amount w
          = (mkworld (db (fst (setup_db w))) (requests w ++ [url]), Raise e)).
Proof.
  intros http ts az amount w url fetched. subst fetched url.
  split; [reflexivity|]. unfold get_random_users. simpl.
  split; [intros ->; reflexivity|].
  split; [intros status ->; reflexivity|].
  split.
  - intros status v ->. split; [reflexivity|].
    intros ms -> Hno. simpl. rewrite (lookup_last_absent _ _ Hno). reflexivity.
  - intros e H. apply run_aborts. exact H.
Qed.

Lemma fetcher_errors_abort_the_run_witness :
  (fun _ : string => NoReply) "https://randomuser.me/api/?results=5000" = NoReply
  /\ snd (get_random_users (fun _ => NoReply) default_amount fresh)
     = Raise ConnectionError
  /\ main (fun _ => NoReply) any_instant no_offset fresh
     = (mkworld empty_tables ["https://randomuser.me/api/?results=5000"],
        Raise ConnectionError).
Proof.
  destruct (fetcher_errors_abort_the_run
              (fun _ => NoReply) any_instant no_offset default_amount fresh)
    as (_ & Hnet & _ & _ & Habort).
  split; [reflexivity|]. split; [exact (Hnet eq_refl)|].
  exact (Habort ConnectionError (Hnet eq_refl)).
Defined.

(** C5, as the claim has it, fails: a response with status 500 whose body
    holds ["results"] makes the Fetcher return, and [main] run to its end. *)
Lemma non_200_response_returns_normally :
  get_random_users answers_500 default_amount fresh
  = (mkworld no_tables ["https://randomuser.me/api/?results=5000"],
     Ok (JArray []))
  /\ snd (main answers_500 any_instant no_offset fresh) = Ok tt.
Proof. split; vm_compute; reflexivity. Qed.

(** ** The fuel of [json_in]

    A text is rejected for what it holds, never for lack of fuel: with the
    fuel [json_in] gives, one more unit changes nothing. *)

Section Fuel.

Import Text.
Import Pg.

Lemma skip_ws_length l : List.length (Pg.skip_ws l) <= List.length l.
Proof.
  induction l as [|c l IH]; simpl; [lia|].
  destruct (Pg.is_ws c); simpl; lia.
Qed.

Lemma skip_ws_cons l c r :
  Pg.skip_ws l = c :: r -> List.length r < List.length l.
Proof.
  intros H. pose proof (skip_ws_length l) as L. rewrite H in L. simpl in L. lia.
Qed.

Lemma span_length p : forall l a b,
  Pg.span p l = (a, b) -> List.length b <= List.length l.
Proof.
  induction l as [|c l IH]; simpl; intros a b H.
  - injection H as <- <-. simpl. lia.
  - destruct (p c).
    + destruct (Pg.span p l) as [a' b'] eqn:E. injection H as <- <-.
      specialize (IH _ _ eq_refl). lia.
    + injection H as <- <-. simpl. lia.
Qed.

Lemma parse_hex4_length l n r :
  Pg.parse_hex4 l = Some (n, r) -> List.length r <= List.length l.
Proof.
  unfold Pg.parse_hex4.
  destruct l as [|a [|b [|c [|d l]]]]; try discriminate.
  destruct (hex_value a), (hex_value b), (hex_value c), (hex_value d);
    try discriminate.
  intros H. injection H as _ <-. simpl. lia.
Qed.

Lemma parse_string_S f acc l :
  parse_string (S f) acc l
  =
  match l with
  | [] => None
  | c :: l' =>
      if eqc c dquote then Some (text (rev acc), l')
      else if eqc c backslash then
        match l' with
        | [] => None
        | d :: l'' =>
            if eqc d "u" then
              match parse_hex4 l'' with
              | None => None
              | Some (n, r) =>
                  if is_high n then
                    match r with
                    | b1 :: u1 :: r1 =>
                        if eqc b1 backslash && eqc u1 "u" then
                          match parse_hex4 r1 with
                          | Some (m, r2) =>
                              if is_low m then
                                parse_string f
                                  (rev (utf8_encode
                                          (65536 + (n - 55296) * 1024
                                           + (m - 56320))%N) ++ acc)%list
                                  r2
                              else None
                          | None => None
                          end
                        else None
                    | _ => None
                    end
                  else if is_low n || (n =? 0)%N then None
                  else parse_string f (rev (utf8_encode n) ++ acc)%list r
              end
            else
              match simple_escape d with
              | Some x => parse_string f (x :: acc) l''
              | None => None
              end
        end
      else if (code c <? 32)%N then None
      else parse_string f (c :: acc) l'
  end.
Proof. reflexivity. Qed.

Lemma parse_string_length : forall f acc l s r,
  Pg.parse_string f acc l = Some (s, r) -> List.length r <= List.length l.
Proof.
  induction f as [|f IH]; intros acc l s r H; [discriminate|].
  rewrite parse_string_S in H.
  destruct l as [|c l']; [discriminate|].
  destruct (eqc c dquote); [injection H as _ <-; simpl; lia|].
  destruct (eqc c backslash).
  - destruct l' as [|d l'']; [discriminate|].
    destruct (eqc d "u").
    + destruct (Pg.parse_hex4 l'') as [[n r0]|] eqn:E4; [|discriminate].
      apply parse_hex4_length in E4.
      destruct (Pg.is_high n).
      * destruct r0 as [|b1 [|u1 r1]]; try discriminate.
        destruct (eqc b1 backslash && eqc u1 "u"); [|discriminate].
        destruct (Pg.parse_hex4 r1) as [[m r2]|] eqn:E5; [|discriminate].
        apply parse_hex4_length in E5.
        destruct (Pg.is_low m); [|discriminate].
        apply IH in H. simpl in *. lia.
      * destruct (Pg.is_low n || (n =? 0)%N); [discriminate|].
        apply IH in H. simpl in *. lia.
    + destruct (Pg.simple_escape d); [|discriminate].
      apply IH in H. simpl in *. lia.
  - destruct (code c <? 32)%N; [discriminate|].
    apply IH in H. simpl in *. lia.
Qed.

Lemma drop_prefix_length : forall p l r,
  Pg.drop_prefix p l = Some r -> List.length r <= List.length l.
Proof.
  induction p as [|a p IH]; intros l r H; simpl in H.
  - injection H as <-. lia.
  - destruct l as [|b l]; [discriminate|].
    destruct (eqc a b); [|discriminate]. apply IH in H. simpl. lia.
Qed.

Lemma tl_length (l : list ascii) : List.length (tl l) <= List.length l.
Proof. destruct l; simpl; lia. Qed.

Lemma parse_number_length l lit r :
  Pg.parse_number l = Some (lit, r) -> List.length r <= List.length l.
Proof.
  unfold Pg.parse_number.
  set (sl := if Pg.starts_with "-" l then (["-"%char], tl l) else ([], l)).
  assert (Hsl : List.length (snd sl) <= List.length l).
  { subst sl. destruct (Pg.starts_with "-" l); simpl;
      [apply tl_length | lia]. }
  destruct sl as [sign l1]. simpl in Hsl.
  destruct (Pg.span is_digit l1) as [int l2] eqn:E1.
  apply span_length in E1.
  destruct int as [|d ds]; [discriminate|].
  destruct (eqc d "0" && _); [discriminate|].
  set (frac := if Pg.starts_with "." l2 then _ else _).
  assert (Hf : forall fr l3, frac = Some (fr, l3) ->
                 List.length l3 <= List.length l2).
  { subst frac. intros fr l3. destruct (Pg.starts_with "." l2).
    - destruct (Pg.span is_digit (tl l2)) as [fd l3'] eqn:E2.
      apply span_length in E2. pose proof (tl_length l2) as Ht.
      destruct fd; [discriminate|]. intros H. injection H as _ <-. lia.
    - intros H. injection H as _ <-. lia. }
  destruct frac as [[fr l3]|]; [|discriminate].
  specialize (Hf _ _ eq_refl).
  destruct (Pg.starts_with "e" l3 || Pg.starts_with "E" l3).
  - set (el := if Pg.starts_with "+" (tl l3) then _ else _).
    assert (He : List.length (snd el) <= List.length l3).
    { subst el. pose proof (tl_length l3) as T1.
      pose proof (tl_length (tl l3)) as T2.
      destruct (Pg.starts_with "+" (tl l3)); simpl; [lia|].
      destruct (Pg.starts_with "-" (tl l3)); simpl; lia. }
    destruct el as [es l5]. simpl in He.
    destruct (Pg.span is_digit l5) as [ed l6] eqn:E3.
    apply span_length in E3.
    destruct ed; [discriminate|]. intros H. injection H as _ <-. lia.
  - intros H. injection H as _ <-. lia.
Qed.

Lemma parse_value_S f l :
  parse_value (S f) l
  =
  match skip_ws l with
  | [] => None
  | c :: l' =>
      if eqc c "{" then
        if starts_with "}" (skip_ws l')
        then Some (JObject [], tl (skip_ws l'))
        else
          match parse_members f l' with
          | Some (ms, r) => Some (JObject ms, r)
          | None => None
          end
      else if eqc c "[" then
        if starts_with "]" (skip_ws l')
        then Some (JArray [], tl (skip_ws l'))
        else
          match parse_items f l' with
          | Some (vs, r) => Some (JArray vs, r)
          | None => None
          end
      else if eqc c dquote then
        match parse_string (List.length l') [] l' with
        | Some (s, r) => Some (JString s, r)
        | None => None
        end
      else if eqc c "t" then
        option_map (pair (JBool true)) (drop_prefix (chars "rue") l')
      else if eqc c "f" then
        option_map (pair (JBool false)) (drop_prefix (chars "alse") l')
      else if eqc c "n" then
        option_map (pair JNull) (drop_prefix (chars "ull") l')
      else
        match parse_number (c :: l') with
        | Some (lit, r) => Some (JNumber lit, r)
        | None => None
        end
  end.
Proof. reflexivity. Qed.

Lemma parse_items_S f l :
  parse_items (S f) l
  =
  match parse_value f l with
  | None => None
  | Some (v, r) =>
      match skip_ws r with
      | c :: r' =>
          if eqc c "," then
            match parse_items f r' with
            | Some (vs, r'') => Some (v :: vs, r'')
            | None => None
            end
          else if eqc c "]" then Some ([v], r')
          else None
      | [] => None
      end
  end.
Proof. reflexivity. Qed.

Lemma parse_members_S f l :
  parse_members (S f) l
  =
  match skip_ws l with
  | q :: l1 =>
      if eqc q dquote then
        match parse_string (List.length l1) [] l1 with
        | None => None
        | Some (k, l2) =>
            match skip_ws l2 with
            | colon :: l3 =>
                if eqc colon ":" then
                  match parse_value f l3 with
                  | None => None
                  | Some (v, r) =>
                      match skip_ws r with
                      | c :: r' =>
                          if eqc c "," then
                            match parse_members f r' with
                            | Some (ms, r'') => Some ((k, v) :: ms, r'')
                            | None => None
                            end
                          else if eqc c "}" then Some ([(k, v)], r')
                          else None
                      | [] => None
                      end
                  end
                else None
            | [] => None
            end
        end
      else None
  | [] => None
  end.
Proof. reflexivity. Qed.

#[local] Arguments Pg.drop_prefix : simpl never.
#[local] Arguments Pg.parse_number : simpl never.
#[local] Arguments Pg.parse_string : simpl never.
#[local] Arguments Pg.starts_with : simpl never.
#[local] Arguments Pg.skip_ws : simpl never.
#[local] Arguments eqc : simpl never.
#[local] Arguments chars : simpl never.

Lemma parse_length : forall f,
  (forall l v r, Pg.parse_value f l = Some (v, r) ->
                 List.length r <= List.length l)
  /\ (forall l vs r, Pg.parse_items f l = Some (vs, r) ->
                     List.length r <= List.length l)
  /\ (forall l ms r, Pg.parse_members f l = Some (ms, r) ->
                     List.length r <= List.length l).
Proof.
  induction f as [|f (IHv & IHi & IHm)];
    [repeat split; intros; discriminate|].
  repeat split.
  - intros l v r H. simpl in H.
    destruct (Pg.skip_ws l) as [|c l'] eqn:Ews; [discriminate|].
    apply skip_ws_cons in Ews.
    pose proof (skip_ws_length l') as Hws.
    pose proof (tl_length (Pg.skip_ws l')) as Htl.
    destruct (eqc c "{").
    { destruct (Pg.starts_with "}" (Pg.skip_ws l')).
      - injection H as _ <-. lia.
      - destruct (Pg.parse_members f l') as [[ms r0]|] eqn:E; [|discriminate].
        injection H as _ <-. apply IHm in E. lia. }
    destruct (eqc c "[").
    { destruct (Pg.starts_with "]" (Pg.skip_ws l')).
      - injection H as _ <-. lia.
      - destruct (Pg.parse_items f l') as [[vs r0]|] eqn:E; [|discriminate].
        injection H as _ <-. apply IHi in E. lia. }
    destruct (eqc c dquote).
    { destruct (Pg.parse_string _ [] l') as [[s0 r0]|] eqn:E; [|discriminate].
      injection H as _ <-. apply parse_string_length in E. lia. }
    destruct (eqc c "t").
    { destruct (Pg.drop_prefix _ l') as [r0|] eqn:E; [|discriminate].
      injection H as _ <-. apply drop_prefix_length in E. lia. }
    destruct (eqc c "f").
    { destruct (Pg.drop_prefix _ l') as [r0|] eqn:E; [|discriminate].
      injection H as _ <-. apply drop_prefix_length in E. lia. }
    destruct (eqc c "n").
    { destruct (Pg.drop_prefix _ l') as [r0|] eqn:E; [|discriminate].
      injection H as _ <-. apply drop_prefix_length in E. lia. }
    destruct (Pg.parse_number (c :: l')) as [[lit r0]|] eqn:E; [|discriminate].
    injection H as _ <-. apply parse_number_length in E. simpl in E. lia.
  - intros l vs r H. simpl in H.
    destruct (Pg.parse_value f l) as [[v r0]|] eqn:E; [|discriminate].
    apply IHv in E.
    destruct (Pg.skip_ws r0) as [|c r'] eqn:Ews; [discriminate|].
    apply skip_ws_cons in Ews.
    destruct (eqc c ",").
    + destruct (Pg.parse_items f r') as [[vs' r'']|] eqn:E'; [|discriminate].
      injection H as _ <-. apply IHi in E'. lia.
    + destruct (eqc c "]"); [|discriminate]. injection H as _ <-. lia.
  - intros l ms r H. simpl in H.
    destruct (Pg.skip_ws l) as [|q l1] eqn:Ews; [discriminate|].
    apply skip_ws_cons in Ews.
    destruct (eqc q dquote); [|discriminate].
    destruct (Pg.parse_string _ [] l1) as [[k l2]|] eqn:Ek; [|discriminate].
    apply parse_string_length in Ek.
    destruct (Pg.skip_ws l2) as [|colon l3] eqn:Ews2; [discriminate|].
    apply skip_ws_cons in Ews2.
    destruct (eqc colon ":"); [|discriminate].
    destruct (Pg.parse_value f l3) as [[v r0]|] eqn:E; [|discriminate].
    apply IHv in E.
    destruct (Pg.skip_ws r0) as [|c r'] eqn:Ews3; [discriminate|].
    apply skip_ws_cons in Ews3.
    destruct (eqc c ",").
    + destruct (Pg.parse_members f r') as [[ms' r'']|] eqn:E'; [|discriminate].
      injection H as _ <-. apply IHm in E'. lia.
    + destruct (eqc c "}"); [|discriminate]. injection H as _ <-. lia.
Qed.

(** One more unit of fuel gives the same result, from twice the length on. *)
Lemma fuel_step : forall n l,
  List.length l <= n ->
  (forall f, 2 * List.length l + 1 <= f ->
             Pg.parse_value (S f) l = Pg.parse_value f l)
  /\ (forall f, 2 * List.length l + 2 <= f ->
                Pg.parse_items (S f) l = Pg.parse_items f l)
  /\ (forall f, 2 * List.length l + 2 <= f ->
                Pg.parse_members (S f) l = Pg.parse_members f l).
Proof.
  induction n as [|n IH]; intros l Hn.
  - destruct l; [|simpl in Hn; lia].
    repeat split; intros [|[|f]] Hf; simpl in Hf; try lia; reflexivity.
  - assert (Hv : forall f, 2 * List.length l + 1 <= f ->
                   Pg.parse_value (S f) l = Pg.parse_value f l).
    { intros [|f] Hf; [lia|].
      rewrite (parse_value_S (S f)), (parse_value_S f).
      destruct (Pg.skip_ws l) as [|c l'] eqn:Ews; [reflexivity|].
      apply skip_ws_cons in Ews.
      destruct (IH l' ltac:(lia)) as (_ & Hi' & Hm').
      rewrite Hi', Hm' by lia. reflexivity. }
    split; [exact Hv|]. split.
    + intros [|f] Hf; [lia|].
      rewrite (parse_items_S (S f)), (parse_items_S f), Hv by lia.
      destruct (Pg.parse_value f l) as [[v r0]|] eqn:E; [|reflexivity].
      apply (proj1 (parse_length f)) in E.
      destruct (Pg.skip_ws r0) as [|c r'] eqn:Ews; [reflexivity|].
      apply skip_ws_cons in Ews.
      destruct (IH r' ltac:(lia)) as (_ & Hi' & _).
      rewrite Hi' by lia. reflexivity.
    + intros [|f] Hf; [lia|].
      rewrite (parse_members_S (S f)), (parse_members_S f).
      destruct (Pg.skip_ws l) as [|q l1] eqn:Ews; [reflexivity|].
      apply skip_ws_cons in Ews.
      destruct (eqc q dquote); [|reflexivity].
      destruct (Pg.parse_string _ [] l1) as [[k l2]|] eqn:Ek; [|reflexivity].
      apply parse_string_length in Ek.
      destruct (Pg.skip_ws l2) as [|colon l3] eqn:Ews2; [reflexivity|].
      apply skip_ws_cons in Ews2.
      destruct (eqc colon ":"); [|reflexivity].
      destruct (IH l3 ltac:(lia)) as (Hv3 & _ & _).
      rewrite Hv3 by lia.
      destruct (Pg.parse_value f l3) as [[v r0]|] eqn:E; [|reflexivity].
      apply (proj1 (parse_length f)) in E.
      destruct (Pg.skip_ws r0) as [|c r'] eqn:Ews3; [reflexivity|].
      apply skip_ws_cons in Ews3.
      destruct (IH r' ltac:(lia)) as (_ & _ & Hm').
      rewrite Hm' by lia. reflexivity.
Qed.

Lemma fuel_enough l : forall extra,
  Pg.parse_value (extra + (2 * List.length l + 2)) l
  = Pg.parse_value (2 * List.length l + 2) l.
Proof.
  induction extra as [|k IH]; [reflexivity|].
  rewrite <- IH. change (S k + (2 * List.length l + 2))
    with (S (k + (2 * List.length l + 2))).
  apply (fuel_step (List.length l) l (le_n _)). lia.
Qed.

Lemma unescape_S f l :
  unescape (S f) l
  =
  match l with
  | [] => []
  | c :: l' =>
      if eqc c backslash then
        match l' with
        | [] => [c]
        | d :: l'' =>
            let (x, r) := escape_tail d l'' in x :: unescape f r
        end
      else c :: unescape f l'
  end.
Proof. reflexivity. Qed.

Lemma json_in_any_fuel s extra :
  match parse_value (extra + (2 * List.length (chars s) + 2)) (chars s) with
  | Some (v, r) =>
      match skip_ws r with
      | [] => Some v
      | _ :: _ => None
      end
  | None => None
  end = json_in s.
Proof. rewrite fuel_enough. reflexivity. Qed.

(** The same for a string and for the escapes of a [COPY] field, which get
    the length of what is left to read. *)
Lemma parse_string_fuel : forall f acc l,
  List.length l <= f -> parse_string (S f) acc l = parse_string f acc l.
Proof.
  induction f as [|f IH]; intros acc l Hl.
  - destruct l; [reflexivity | simpl in Hl; lia].
  - rewrite (parse_string_S (S f)), (parse_string_S f).
    destruct l as [|c l']; [reflexivity|]. simpl in Hl.
    destruct (eqc c dquote); [reflexivity|].
    destruct (eqc c backslash).
    + destruct l' as [|d l'']; [reflexivity|]. simpl in Hl.
      destruct (eqc d "u").
      * destruct (parse_hex4 l'') as [[n r0]|] eqn:E4; [|reflexivity].
        apply parse_hex4_length in E4.
        destruct (is_high n).
        -- destruct r0 as [|b1 [|u1 r1]]; try reflexivity. simpl in E4.
           destruct (eqc b1 backslash && eqc u1 "u"); [|reflexivity].
           destruct (parse_hex4 r1) as [[m r2]|] eqn:E5; [|reflexivity].
           apply parse_hex4_length in E5.
           destruct (is_low m); [|reflexivity]. apply IH. lia.
        -- destruct (is_low n || (n =? 0)%N); [reflexivity|]. apply IH. lia.
      * destruct (simple_escape d); [|reflexivity]. apply IH. lia.
    + destruct (code c <? 32)%N; [reflexivity|]. apply IH. lia.
Qed.

Lemma escape_tail_length d l :
  List.length (snd (escape_tail d l)) <= List.length l.
Proof.
  unfold escape_tail.
  repeat match goal with
         | |- context [if ?b then _ else _] => destruct b
         | |- context [match ?x with _ => _ end] => destruct x
         end; simpl; lia.
Qed.

Lemma unescape_fuel : forall f l,
  List.length l <= f -> unescape (S f) l = unescape f l.
Proof.
  induction f as [|f IH]; intros l Hl.
  - destruct l; [reflexivity | simpl in Hl; lia].
  - rewrite (unescape_S (S f)), (unescape_S f).
    destruct l as [|c l']; [reflexivity|]. simpl in Hl.
    destruct (eqc c backslash).
    + destruct l' as [|d l'']; [reflexivity|]. simpl in Hl.
      pose proof (escape_tail_length d l'') as Ht.
      destruct (escape_tail d l'') as [x r]. simpl in Ht.
      f_equal. apply IH. lia.
    + f_equal. apply IH. lia.
Qed.

End Fuel.

(** ** One line for every list

    [json.dumps] writes no control character, so the text it gives for a
    list is one line of one field for [COPY], and starts with a bracket. *)

Section OneLine.

Import Text.

Lemma chars_app a b : chars (a ++ b)%string = chars a ++ chars b.
Proof. induction a as [|c a IH]; simpl; [reflexivity | rewrite IH; reflexivity]. Qed.

Lemma chars_text l : chars (text l) = l.
Proof. apply list_ascii_of_string_of_list_ascii. Qed.

Lemma text_chars s : text (chars s) = s.
Proof. apply string_of_list_ascii_of_string. Qed.

Lemma no_control_app a b :
  no_control (a ++ b) = no_control a && no_control b.
Proof. apply forallb_app. Qed.

Lemma no_control_join sep l :
  no_control (chars sep) = true ->
  Forall (fun s => no_control (chars s) = true) l ->
  no_control (chars (join sep l)) = true.
Proof.
  intros Hsep H. induction H as [|s l Hs Hl IH]; [reflexivity|].
  simpl. destruct l as [|s' l']; [exact Hs|].
  rewrite !chars_app, !no_control_app, Hs, Hsep. exact IH.
Qed.

Lemma no_control_concat l :
  Forall (fun s => no_control (chars s) = true) l ->
  no_control (chars (concat "" l)) = true.
Proof.
  intros H. induction H as [|s l Hs Hl IH]; [reflexivity|].
  simpl. destruct l as [|s' l']; [exact Hs|].
  simpl in *. rewrite chars_app, no_control_app, Hs. exact IH.
Qed.

Lemma code_char n : (n < 256)%N -> code (char n) = n.
Proof. apply N_ascii_embedding. Qed.

Lemma hex_digit_printable n :
  (n < 16)%N -> (32 <=? code (hex_digit n))%N = true.
Proof.
  intros H. unfold hex_digit. apply N.leb_le.
  destruct (n <? 10)%N eqn:E; rewrite code_char; lia.
Qed.

Lemma no_control_hex4 n : no_control (chars (hex4 n)) = true.
Proof.
  unfold hex4. rewrite chars_text. simpl.
  rewrite !hex_digit_printable by (apply N.mod_lt; discriminate).
  reflexivity.
Qed.

Lemma no_control_escape_code n : no_control (chars (Py.escape_code n)) = true.
Proof.
  unfold Py.escape_code.
  repeat match goal with
         | |- context [if ?b then _ else _] => destruct b eqn:?
         end; try reflexivity.
  - simpl. rewrite andb_true_r. apply N.leb_le.
    apply andb_true_iff in Heqb6. destruct Heqb6 as (L & U).
    apply N.leb_le in L, U. rewrite code_char; lia.
  - rewrite chars_app, no_control_app, no_control_hex4. reflexivity.
  - rewrite !chars_app, !no_control_app, !no_control_hex4. reflexivity.
Qed.

Lemma no_control_quoted s :
  no_control (chars s) = true -> no_control (chars (quoted s)) = true.
Proof.
  intros H. unfold quoted. simpl. rewrite chars_app, no_control_app, H.
  reflexivity.
Qed.

Lemma no_control_encode s :
  no_control (chars (Py.encode_basestring_ascii s)) = true.
Proof.
  unfold Py.encode_basestring_ascii. apply no_control_quoted.
  apply no_control_concat, Forall_forall. intros x Hx.
  apply in_map_iff in Hx. destruct Hx as (n & <- & _).
  apply no_control_escape_code.
Qed.

Lemma no_control_dumps v :
  plain v = true -> no_control (chars (Py.dumps v)) = true.
Proof.
  unfold Py.dumps. induction v using json_induction; intros Hp.
  - reflexivity.
  - destruct b; reflexivity.
  - exact Hp.
  - apply no_control_encode.
  - change (render Py.encode_basestring_ascii (JArray items))
      with ("[" ++ join ", " (map (render Py.encode_basestring_ascii) items)
            ++ "]")%string.
    rewrite !chars_app, !no_control_app.
    rewrite no_control_join; [reflexivity | reflexivity |].
    apply Forall_forall. intros x Hx. apply in_map_iff in Hx.
    destruct Hx as (y & <- & Hy). rewrite Forall_forall in H.
    apply (H y Hy). simpl in Hp. rewrite forallb_forall in Hp. apply Hp, Hy.
  - change (render Py.encode_basestring_ascii (JObject ms))
      with ("{" ++ join ", "
                     (map (fun kv => Py.encode_basestring_ascii (fst kv) ++ ": "
                                     ++ render Py.encode_basestring_ascii (snd kv))
                        ms)
            ++ "}")%string.
    rewrite !chars_app, !no_control_app.
    rewrite no_control_join; [reflexivity | reflexivity |].
    apply Forall_forall. intros x Hx. apply in_map_iff in Hx.
    destruct Hx as ([k y] & <- & Hy). rewrite Forall_forall in H.
    simpl in Hp. rewrite forallb_forall in Hp.
    rewrite !chars_app, !no_control_app, no_control_encode.
    rewrite (H (k, y) Hy (Hp (k, y) Hy)). reflexivity.
Qed.

Lemma no_control_free sep l :
  (code sep < 32)%N -> no_control l = true ->
  forallb (fun c => negb (eqc c sep)) l = true.
Proof.
  intros Hsep H. apply forallb_forall. intros c Hc.
  unfold no_control in H. rewrite forallb_forall in H.
  specialize (H c Hc). apply N.leb_le in H.
  destruct (eqc c sep) eqn:E; [|reflexivity].
  apply Ascii.eqb_eq in E. subst c. lia.
Qed.

(** Where the separator does not occur, nothing is cut. *)
Lemma split_raw_absent sep : forall n l cur,
  List.length l <= n ->
  forallb (fun c => negb (eqc c sep)) l = true ->
  Pg.split_raw sep cur l = [rev cur ++ l].
Proof.
  induction n as [|n IH]; intros l cur Hn Hl.
  - destruct l; [|simpl in Hn; lia]. simpl. rewrite app_nil_r. reflexivity.
  - destruct l as [|c l']; [simpl; rewrite app_nil_r; reflexivity|].
    simpl in Hl. apply andb_true_iff in Hl. destruct Hl as (Hc & Hl').
    simpl. destruct (eqc c sep); [discriminate|].
    destruct (eqc c backslash).
    + destruct l' as [|d l'']; [reflexivity|].
      simpl in Hl'. apply andb_true_iff in Hl'. destruct Hl' as (_ & Hl'').
      rewrite IH; [|simpl in Hn; lia | exact Hl''].
      simpl. rewrite <- !app_assoc. reflexivity.
    + rewrite IH; [|simpl in Hn; lia | exact Hl'].
      simpl. rewrite <- app_assoc. reflexivity.
Qed.

Lemma copy_lines_bracket rest :
  no_control ("["%char :: rest) = true ->
  Pg.copy_lines ("["%char :: rest) = ["["%char :: rest].
Proof.
  intros H. unfold Pg.copy_lines.
  rewrite (split_raw_absent newline _ _ [] (le_n _)
             (no_control_free newline _ eq_refl H)).
  reflexivity.
Qed.

Lemma copy_row_bracket rest row :
  no_control ("["%char :: rest) = true ->
  copy_row ("["%char :: rest) = Ok row ->
  exists items, row = Some (JArray items).
Proof.
  intros H. unfold copy_row.
  rewrite (split_raw_absent tab _ _ [] (le_n _)
             (no_control_free tab _ eq_refl H)).
  cbn [rev app]. unfold Pg.copy_field.
  change (Pg.list_eqb ("["%char :: rest) (chars "\N")) with false.
  cbn [List.length Pg.unescape]. change (eqc "[" backslash) with false.
  cbv iota. unfold Pg.json_in. rewrite chars_text.
  set (u := Pg.unescape (List.length rest) rest).
  cbn [List.length Nat.mul Nat.add Pg.parse_value Pg.skip_ws].
  change (Pg.is_ws "[") with false. cbv iota.
  change (eqc "[" "{") with false. change (eqc "[" "[") with true. cbv iota.
  destruct (Pg.starts_with "]" (Pg.skip_ws u)).
  - destruct (Pg.skip_ws (tl (Pg.skip_ws u))); intros E; [|discriminate].
    injection E as <-. eauto.
  - destruct (Pg.parse_items _ u) as [[vs r]|]; [|discriminate].
    destruct (Pg.skip_ws r); intros E; [|discriminate].
    injection E as <-. eauto.
Qed.

(** A load of a list that completes has added one row, whatever the length
    of the list, and its document is a list. *)
Lemma load_of_a_list_adds_one_row items w w' :
  plain (JArray items) = true ->
  load_users_into_api_results (JArray items) w = (w', Ok tt) ->
  exists t items',
    api_results (db w) = Some t
    /\ w' = mkworld (mkdb (Some (t ++ [Some (JArray items')]))
                          (identities (db w)) (profiles (db w)))
                    (requests w).
Proof.
  intros Hp. unfold load_users_into_api_results. rewrite connect_one.
  unfold copy_from_api_results.
  destruct (api_results (db w)) as [t|]; [|discriminate].
  assert (Hc := no_control_dumps _ Hp).
  unfold Py.dumps in *.
  change (render Py.encode_basestring_ascii (JArray items))
    with ("[" ++ join ", " (map (render Py.encode_basestring_ascii) items)
          ++ "]")%string in *.
  rewrite chars_app in *. cbn [chars list_ascii_of_string app] in *.
  rewrite (copy_lines_bracket _ Hc). cbn [mapM].
  destruct (copy_row _) as [row|e] eqn:Er; [|discriminate].
  destruct (copy_row_bracket _ _ Hc Er) as (items' & ->).
  simpl. intros E. injection E as <-. eauto.
Qed.

(** From a row that holds a list the two statements derive an empty key
    and NULLs. *)
Lemma rows_derived_from_a_list to_timestamp items :
  identity_of (Some (JArray items)) = null_identity
  /\ profile_of to_timestamp (Some (JArray items)) = Ok null_profile.
Proof. split; reflexivity. Qed.

(** A run from a database without tables that fetches a list, of whatever
    length, and completes leaves one row in each table. *)
Lemma run_on_any_list http to_timestamp at_session_zone amount items w' :
  snd (get_random_users http amount fresh) = Ok (JArray items) ->
  plain (JArray items) = true ->
  run http to_timestamp at_session_zone amount fresh = (w', Ok tt) ->
  exists items',
    db w' = mkdb (Some [Some (JArray items')])
                 (Some [null_identity]) (Some [null_profile]).
Proof.
  intros Hget Hp. unfold run, bindM at 1.
  change (setup_db fresh) with (mkworld empty_tables [], Ok tt).
  unfold bindM at 1. unfold get_random_users in *. cbn [snd] in Hget.
  cbn [db requests]. rewrite Hget. unfold bindM.
  destruct (load_users_into_api_results (JArray items) _)
    as [w1 [[]|e]] eqn:El; [|discriminate].
  destruct (load_of_a_list_adds_one_row _ _ _ Hp El) as (t & items' & Et & ->).
  injection Et as <-. intros E. exists items'.
  apply (f_equal fst) in E. cbn [fst] in E. subst w'. reflexivity.
Qed.

End OneLine.

(** ** The run on the documented record *)

(** C1: [main] on the response of the docstring.  The one record is loaded
    inside a row that holds the whole list, so the key and every column
    derived from that row are empty or NULL: [identities] gets the row
    [('', NULL)] and [profiles] a row of NULLs for it, not the row with key
    PPS0390511T. *)
Theorem main_on_the_documented_response :
  forall (to_timestamp : string -> string -> option Z)
         (at_session_zone : Z -> Z),
    main (answers sample_response) to_timestamp at_session_zone fresh
    = (mkworld (mkdb (Some [Some (JArray [sample_user])])
                     (Some [null_identity])
                     (Some [null_profile]))
               ["https://randomuser.me/api/?results=5000"],
       Ok tt).
Proof. intros ts az. vm_compute. reflexivity. Qed.

(** C2: loading a list of two records adds one row, which holds the list. *)
Theorem load_of_two_records_adds_one_row :
  load_users_into_api_results
    (JArray [twin "silverswan131"; twin "bluefrog202"])
    (mkworld empty_tables [])
  = (mkworld
       (mkdb (Some [Some (JArray [twin "silverswan131"; twin "bluefrog202"])])
             (Some []) (Some []))
       [],
     Ok tt).
Proof. vm_compute. reflexivity. Qed.

(** C6: a run that fetches no record adds one row to each table: the empty
    list to [api_results], and the rows derived from it. *)
Theorem run_with_no_records_adds_rows :
  forall (to_timestamp : string -> string -> option Z)
         (at_session_zone : Z -> Z),
    run (answers empty_response) to_timestamp at_session_zone 0 fresh
    = (mkworld (mkdb (Some [Some (JArray [])])
                     (Some [null_identity])
                     (Some [null_profile]))
               ["https://randomuser.me/api/?results=0"],
       Ok tt).
Proof. intros ts az. vm_compute. reflexivity. Qed.


(* ================================================================== *)
(** * More on the stages *)

(** ** [setup_db] *)

(** X1: [setup_db] completes from every state of the database, whichever of
    the three tables exist: afterwards all three exist, the rows that were
    there are there, and a second call changes nothing. *)
Theorem setup_db_completes_from_any_state :
  forall w : world,
    exists d,
      setup_db w = (mkworld d (requests w), Ok tt)
      /\ tables_exist d
      /\ rows (api_results d) = rows (api_results (db w))
      /\ rows (identities d) = rows (identities (db w))
      /\ rows (profiles d) = rows (profiles (db w))
      /\ setup_db (mkworld d (requests w)) = (mkworld d (requests w), Ok tt).
Proof.
  intros [[[raw|] [ids|] [t|]] reqs]; eexists;
    (split; [reflexivity|]); unfold tables_exist; simpl;
    repeat split; discriminate.
Qed.

(** ** The Normalizer: when it completes *)

Section Completion.

Variable to_timestamp : string -> string -> option Z.
Variable at_session_zone : Z -> Z.

Let normalize :=
  load_results_into_identities_and_profiles to_timestamp at_session_zone.




End Completion.


(** ** The Normalizer: which rows it writes *)

Section Written.

Variable to_timestamp : string -> string -> option Z.
Variable at_session_zone : Z -> Z.

Lemma insert_identity_absent k t r :
  has_id k t = false -> String.eqb k (Identity.id r) = false ->
  has_id k (insert_identity t r) = false.
Proof.
  intros Ht Hr. unfold insert_identity.
  destruct (has_id (Identity.id r) t); [exact Ht|].
  rewrite has_id_app, Ht. simpl. rewrite Hr. reflexivity.
Qed.

(** The first row of a key that the table does not hold is the one that
    gets in. *)
Lemma fold_insert_identity_first k r0 : forall rs t,
  has_id k t = false ->
  find (fun x => String.eqb k (Identity.id x)) rs = Some r0 ->
  In r0 (fold_left insert_identity rs t).
Proof.
  induction rs as [|a rs IH]; intros t Ht Hf; simpl in Hf; [discriminate|].
  simpl. destruct (String.eqb k (Identity.id a)) eqn:E.
  - injection Hf as <-. apply String.eqb_eq in E. subst k.
    unfold insert_identity at 2. rewrite Ht.
    destruct (fold_insert_identity_extends rs (t ++ [a])) as (ext & ->).
    apply in_or_app. left. apply in_or_app. right. left. reflexivity.
  - apply IH; [apply insert_identity_absent; assumption | exact Hf].
Qed.

Lemma find_identity_of k raw :
  find (fun x => String.eqb k (Identity.id x)) (map identity_of raw)
  = option_map identity_of
      (find (fun data => String.eqb k (identity_key data)) raw).
Proof.
  induction raw as [|d raw IH]; [reflexivity|]. simpl.
  destruct (String.eqb k (identity_key d)); [reflexivity | exact IH].
Qed.

Lemma same_id_same_row : forall t a b,
  NoDup (map Identity.id t) -> In a t -> In b t ->
  Identity.id a = Identity.id b -> a = b.
Proof.
  induction t as [|x t IH]; intros a b Hnd Ha Hb E; [destruct Ha|].
  simpl in Hnd. inversion Hnd as [|? ? Hx Hnd']; subst.
  destruct Ha as [-> | Ha], Hb as [-> | Hb].
  - reflexivity.
  - exfalso. apply Hx. rewrite E. apply in_map, Hb.
  - exfalso. apply Hx. rewrite <- E. apply in_map, Ha.
  - apply IH; assumption.
Qed.

Lemma fold_insert_profile_nodup ids rs : forall t t',
  fold_left (insert_profile ids) rs (Ok t) = Ok t' ->
  NoDup (map Profile.identity_id t) -> NoDup (map Profile.identity_id t').
Proof.
  induction rs as [|r rs IH]; intros t t' H Hnd; simpl in H.
  - injection H as <-. exact Hnd.
  - destruct (has_identity_id (Profile.identity_id r) t) eqn:Hdup;
      [exact (IH _ _ H Hnd)|].
    destruct (has_id (Profile.identity_id r) ids);
      [|rewrite fold_insert_profile_raise in H; discriminate].
    apply (IH _ _ H). rewrite map_app. apply NoDup_app; [exact Hnd | |].
    + simpl. constructor; [intros [] | constructor].
    + intros k Hk [<- | []]. apply in_map_iff in Hk.
      destruct Hk as (x & Ex & Hx).
      assert (Hc : has_identity_id (Profile.identity_id r) t = true).
      { unfold has_identity_id. apply existsb_exists. exists x.
        split; [exact Hx|]. apply String.eqb_eq. auto. }
      congruence.
Qed.

Lemma count_identity_id_nodup k : forall t,
  NoDup (map Profile.identity_id t) -> has_identity_id k t = true ->
  count_identity_id k t = 1.
Proof.
  unfold count_identity_id.
  induction t as [|r t IH]; simpl; intros Hnd Hk; [discriminate|].
  inversion Hnd as [|? ? Hnotin Hnd']; subst.
  destruct (String.eqb k (Profile.identity_id r)) eqn:E; simpl.
  - apply String.eqb_eq in E. subst k. f_equal.
    destruct (filter _ t) as [|x l] eqn:F; [reflexivity|].
    exfalso. apply Hnotin.
    assert (Hx : In x (filter (fun r0 => String.eqb (Profile.identity_id r)
                                           (Profile.identity_id r0)) t))
      by (rewrite F; left; reflexivity).
    apply filter_In in Hx. destruct Hx as (Hx & Ex).
    apply String.eqb_eq in Ex. rewrite Ex. apply in_map, Hx.
  - apply IH; assumption.
Qed.

Lemma profile_eqb_key a b :
  Profile.eqb a b = true -> Profile.identity_id a = Profile.identity_id b.
Proof.
  unfold Profile.eqb. intros H.
  repeat (apply andb_true_iff in H; destruct H as (H & _)).
  apply String.eqb_eq, H.
Qed.

Lemma distinct_snoc l r :
  distinct (l ++ [r])
  = if existsb (Profile.eqb r) (distinct l) then distinct l
    else distinct l ++ [r].
Proof. unfold distinct. rewrite fold_left_app. reflexivity. Qed.

Lemma insert_profile_present ids t r :
  has_identity_id (Profile.identity_id r) t = true ->
  insert_profile ids (Ok t) r = Ok t.
Proof. intros H. unfold insert_profile. simpl. rewrite H. reflexivity. Qed.

Lemma distinct_is_redundant ids t : forall derived,
  fold_left (insert_profile ids)
    (map (as_inserted at_session_zone) (distinct derived)) (Ok t)
  = fold_left (insert_profile ids)
      (map (as_inserted at_session_zone) derived) (Ok t).
Proof.
  induction derived as [|r derived IH] using rev_ind; [reflexivity|].
  rewrite distinct_snoc.
  rewrite (map_app (as_inserted at_session_zone) derived [r]), fold_left_app.
  rewrite <- IH.
  destruct (existsb (Profile.eqb r) (distinct derived)) eqn:E.
  - apply existsb_exists in E. destruct E as (r0 & Hr0 & E).
    apply profile_eqb_key in E. cbn [map fold_left].
    destruct (fold_left _ (map _ (distinct derived)) (Ok t)) as [t'|e] eqn:F;
      [|reflexivity].
    symmetry. apply insert_profile_present.
    change (Profile.identity_id (as_inserted at_session_zone r))
      with (Profile.identity_id r).
    rewrite E.
    change (Profile.identity_id r0)
      with (Profile.identity_id (as_inserted at_session_zone r0)).
    apply (fold_insert_profile_ok _ _ _ _ F). apply in_map, Hr0.
  - rewrite map_app, fold_left_app. reflexivity.
Qed.

End Written.

(** X3: the rows of [identities] are written once.  After a run of the
    Normalizer that completes, the table is the table of before followed by
    the added rows, a row that was there is the only one with its key, and
    for a key that was not there the one row is the row of the first record
    of [api_results] with that key. *)
Theorem identities_are_first_write_wins :
  forall (to_timestamp : string -> string -> option Z)
         (at_session_zone : Z -> Z) (w w1 : world),
    primary_key (db w) ->
    load_results_into_identities_and_profiles to_timestamp at_session_zone w
    = (w1, Ok tt) ->
    (exists added,
        rows (identities (db w1)) = rows (identities (db w)) ++ added)
    /\ (forall old r,
          In old (rows (identities (db w))) ->
          In r (rows (identities (db w1))) ->
          Identity.id r = Identity.id old -> r = old)
    /\ (forall k first r,
          has_id k (rows (identities (db w))) = false ->
          find (fun data => String.eqb k (identity_key data))
               (rows (api_results (db w))) = Some first ->
          In r (rows (identities (db w1))) ->
          Identity.id r = k -> r = identity_of first).
Proof.
  intros ts az w w1 Hpk H.
  destruct (normalize_ok _ _ _ _ H)
    as (raw & ids & t & derived & t1 & Er & Ei & _ & _ & _ & ->).
  unfold primary_key in Hpk. rewrite Ei in Hpk. rewrite Ei, Er.
  cbn [db identities rows] in *.
  assert (Hnd := fold_insert_identity_nodup (map identity_of raw) ids Hpk).
  destruct (fold_insert_identity_extends (map identity_of raw) ids)
    as (added & Eadd).
  split; [exists added; exact Eadd|]. split.
  - intros old r Hold Hr E.
    apply (same_id_same_row _ _ _ Hnd Hr); [|exact E].
    rewrite Eadd. apply in_or_app. left. exact Hold.
  - intros k first r Hk Hfirst Hr E.
    apply (same_id_same_row _ _ _ Hnd Hr).
    + apply (fold_insert_identity_first k); [exact Hk|].
      rewrite find_identity_of, Hfirst. reflexivity.
    + rewrite E. apply find_some in Hfirst. destruct Hfirst as (_ & Ek).
      apply String.eqb_eq in Ek. exact Ek.
Qed.

Lemma mapM_covers {A B : Type} (f : A -> outcome B) : forall l bs,
  mapM f l = Ok bs ->
  forall a, In a l -> exists b, In b bs /\ f a = Ok b.
Proof.
  intros l bs H. apply mapM_ok in H.
  induction H as [|x y l bs Hxy _ IH]; intros a Ha; [destruct Ha|].
  destruct Ha as [<- | Ha].
  - exists y. split; [left; reflexivity | exact Hxy].
  - destruct (IH a Ha) as (b & Hb & E). exists b. split; [right|]; assumption.
Qed.

(** X4: [identity_id] stays unique in [profiles], and after a run of the
    Normalizer that completes every record of [api_results] has its
    identity and exactly one profile. *)
Theorem every_record_gets_one_profile :
  forall (to_timestamp : string -> string -> option Z)
         (at_session_zone : Z -> Z) (w w1 : world),
    unique_identity_id (db w) ->
    load_results_into_identities_and_profiles to_timestamp at_session_zone w
    = (w1, Ok tt) ->
    unique_identity_id (db w1)
    /\ forall data,
         In data (rows (api_results (db w))) ->
         has_id (identity_key data) (rows (identities (db w1))) = true
         /\ count_identity_id (identity_key data) (rows (profiles (db w1))) = 1.
Proof.
  intros ts az w w1 Hu H.
  destruct (normalize_ok _ _ _ _ H)
    as (raw & ids & t & derived & t1 & Er & _ & Et & Ed & Ef & ->).
  unfold unique_identity_id in *. rewrite Et in Hu. rewrite Er.
  cbn [db identities profiles rows] in *.
  assert (Hnd := fold_insert_profile_nodup _ _ _ _ Ef Hu).
  split; [exact Hnd|]. intros data Hdata. split.
  - change (identity_key data) with (Identity.id (identity_of data)).
    apply fold_insert_identity_has, in_map, Hdata.
  - apply count_identity_id_nodup; [exact Hnd|].
    rewrite distinct_is_redundant in Ef.
    destruct (mapM_covers _ _ _ Ed data Hdata) as (q & Hq & Eq).
    rewrite <- (profile_of_key _ _ _ Eq).
    change (Profile.identity_id q)
      with (Profile.identity_id (as_inserted az q)).
    apply (fold_insert_profile_ok _ _ _ _ Ef). apply in_map, Hq.
Qed.


(** ** The keys of the two derived tables *)

Section Keys.

Variable http : string -> reply.
Variable to_timestamp : string -> string -> option Z.
Variable at_session_zone : Z -> Z.








End Keys.


(** ** The run as a whole *)

Section WholeRun.

Variable http : string -> reply.
Variable to_timestamp : string -> string -> option Z.
Variable at_session_zone : Z -> Z.

Let normalize :=
  load_results_into_identities_and_profiles to_timestamp at_session_zone.





Lemma normalize_uniqueness w :
  primary_key (db w) /\ unique_identity_id (db w) ->
  primary_key (db (fst (normalize w)))
  /\ unique_identity_id (db (fst (normalize w))).
Proof.
  intros (Hpk & Hu). destruct (normalize w) as [w1 [[]|e]] eqn:E; simpl.
  - destruct (normalize_ok _ _ _ _ E)
      as (raw & ids & t & derived & t1 & _ & Ei & Et & _ & Ef & ->).
    unfold primary_key, unique_identity_id in *. rewrite Ei in Hpk.
    rewrite Et in Hu. cbn [db identities profiles rows] in *. split.
    + apply fold_insert_identity_nodup, Hpk.
    + exact (fold_insert_profile_nodup _ _ _ _ Ef Hu).
  - rewrite (normalize_raise _ _ _ _ _ E). split; assumption.
Qed.

Lemma step_uniqueness w o :
  primary_key (db w) /\ unique_identity_id (db w) ->
  primary_key (db (step http to_timestamp at_session_zone w o))
  /\ unique_identity_id (db (step http to_timestamp at_session_zone w o)).
Proof.
  set (P := fun w' : world =>
              primary_key (db w') /\ unique_identity_id (db w')).
  assert (Hsetup : forall w', P w' -> P (fst (setup_db w'))).
  { intros w' H. unfold P, primary_key, unique_identity_id.
    destruct (setup_db_rows w') as (-> & -> & _). exact H. }
  assert (Hload : forall users w',
            P w' -> P (fst (load_users_into_api_results users w'))).
  { intros users w' H. unfold P, primary_key, unique_identity_id.
    destruct (load_keeps_derived users w') as (-> & ->). exact H. }
  intros H. change (P (step http to_timestamp at_session_zone w o)).
  destruct o as [|amount|users| |amount]; simpl.
  - apply Hsetup, H.
  - exact H.
  - apply Hload, H.
  - apply normalize_uniqueness, H.
  - unfold run. apply (bindM_fst P); [apply Hsetup, H|].
    intros _ w1 H1. apply (bindM_fst P); [exact H1|].
    intros users w2 H2. apply (bindM_fst P); [apply Hload, H2|].
    intros _ w3 H3. apply normalize_uniqueness, H3.
Qed.

End WholeRun.


(** X8: the two uniqueness constraints are kept: when no two rows of
    [identities] share an [id] and no two rows of [profiles] an
    [identity_id], the same holds after any sequence of stages and runs. *)
Theorem uniqueness_constraints_are_invariant :
  forall (http : string -> reply)
         (to_timestamp : string -> string -> option Z)
         (at_session_zone : Z -> Z) (ops : list op) (w : world),
    primary_key (db w) /\ unique_identity_id (db w) ->
    primary_key (db (steps http to_timestamp at_session_zone ops w))
    /\ unique_identity_id (db (steps http to_timestamp at_session_zone ops w)).
Proof.
  intros http ts az ops. unfold steps.
  induction ops as [|o ops IH]; intros w H; simpl; [exact H|].
  apply IH, step_uniqueness, H.
Qed.


(** ** From the list to the row: [json.dumps], [COPY] and the [json] reader *)

Section RoundTrip.

Import Text.

Lemma char_code c : char (code c) = c.
Proof. apply ascii_N_embedding. Qed.

Lemma code_lt c : (code c < 256)%N.
Proof. apply N_ascii_bounded. Qed.

Lemma eqc_code c n :
  (n < 256)%N -> eqc c (char n) = false -> (code c =? n)%N = false.
Proof.
  intros Hn H. apply N.eqb_neq. intros E. subst n. rewrite char_code in H.
  unfold eqc in H. rewrite Ascii.eqb_refl in H. discriminate.
Qed.

Lemma safe_char_facts c :
  safe_char c = true ->
  (32 <= code c)%N /\ (code c <= 126)%N
  /\ eqc c dquote = false /\ eqc c backslash = false.
Proof.
  unfold safe_char. intros H.
  apply andb_true_iff in H. destruct H as (H & Hb).
  apply andb_true_iff in H. destruct H as (H & Hq).
  apply andb_true_iff in H. destruct H as (Hl & Hu).
  apply N.leb_le in Hl, Hu. apply negb_true_iff in Hb, Hq. auto.
Qed.

Lemma escape_code_safe c :
  safe_char c = true -> Py.escape_code (code c) = String c "".
Proof.
  intros H. destruct (safe_char_facts c H) as (Hl & Hu & Hq & Hb).
  unfold Py.escape_code.
  rewrite (eqc_code c 92 eq_refl Hb), (eqc_code c 34 eq_refl Hq).
  replace (code c =? 8)%N with false by (symmetry; apply N.eqb_neq; lia).
  replace (code c =? 12)%N with false by (symmetry; apply N.eqb_neq; lia).
  replace (code c =? 10)%N with false by (symmetry; apply N.eqb_neq; lia).
  replace (code c =? 13)%N with false by (symmetry; apply N.eqb_neq; lia).
  replace (code c =? 9)%N with false by (symmetry; apply N.eqb_neq; lia).
  replace ((32 <=? code c) && (code c <=? 126))%N with true
    by (symmetry; apply andb_true_iff; split; apply N.leb_le; lia).
  rewrite char_code. reflexivity.
Qed.

Lemma utf8_decode_safe l :
  forallb safe_char l = true -> utf8_decode l = map code l.
Proof.
  induction l as [|a l IH]; intros H; [reflexivity|].
  simpl in H. apply andb_true_iff in H. destruct H as (Ha & Hl).
  destruct (safe_char_facts a Ha) as (_ & Hu & _).
  cbn [utf8_decode map].
  replace (code a <? 192)%N with true by (symmetry; apply N.ltb_lt; lia).
  rewrite (IH Hl). reflexivity.
Qed.

Lemma concat_singletons l :
  forallb safe_char l = true ->
  concat "" (map Py.escape_code (map code l)) = text l.
Proof.
  induction l as [|a l IH]; intros H; [reflexivity|].
  simpl in H. apply andb_true_iff in H. destruct H as (Ha & Hl).
  cbn [map]. rewrite (escape_code_safe a Ha).
  specialize (IH Hl). destruct l as [|b l]; [reflexivity|].
  cbn [map] in *.
  change (concat "" (String a "" :: Py.escape_code (code b)
                       :: map Py.escape_code (map code l)))
    with (String a "" ++ ""
          ++ concat "" (Py.escape_code (code b)
                          :: map Py.escape_code (map code l)))%string.
  rewrite IH. reflexivity.
Qed.

(** [json.dumps] writes a safe string between quotes and nothing else. *)
Lemma encode_safe s :
  safe_string s = true -> Py.encode_basestring_ascii s = quoted s.
Proof.
  intros H. unfold Py.encode_basestring_ascii.
  rewrite (utf8_decode_safe _ H), (concat_singletons _ H).
  unfold chars, text. rewrite string_of_list_ascii_of_string. reflexivity.
Qed.

Lemma clean_app a b : clean (a ++ b) = clean a && clean b.
Proof. apply forallb_app. Qed.

Lemma clean_safe l : forallb safe_char l = true -> clean l = true.
Proof.
  intros H. apply forallb_forall. intros c Hc.
  rewrite forallb_forall in H.
  destruct (safe_char_facts c (H c Hc)) as (Hl & _ & _ & Hb).
  rewrite Hb. apply andb_true_iff. split; [apply N.leb_le, Hl | reflexivity].
Qed.

Lemma clean_no_control l : clean l = true -> no_control l = true.
Proof.
  intros H. apply forallb_forall. intros c Hc.
  unfold clean in H. rewrite forallb_forall in H.
  specialize (H c Hc). apply andb_true_iff in H. apply H.
Qed.

Lemma clean_join sep l :
  clean (chars sep) = true ->
  Forall (fun s => clean (chars s) = true) l ->
  clean (chars (join sep l)) = true.
Proof.
  intros Hsep H. induction H as [|s l Hs Hl IH]; [reflexivity|].
  simpl. destruct l as [|s' l']; [exact Hs|].
  rewrite !chars_app, !clean_app, Hs, Hsep. exact IH.
Qed.

Lemma clean_quoted s :
  safe_string s = true -> clean (chars (quoted s)) = true.
Proof.
  intros H. unfold quoted. cbn [chars list_ascii_of_string].
  change (list_ascii_of_string (s ++ String dquote ""))
    with (chars (s ++ String dquote "")).
  rewrite chars_app. cbn [clean forallb]. fold (clean (chars s ++ [dquote])).
  rewrite clean_app, (clean_safe _ H). reflexivity.
Qed.

Lemma number_literal_facts lit :
  number_literal lit = true ->
  safe_string lit = true
  /\ Pg.parse_number (chars lit) = Some (lit, []).
Proof.
  unfold number_literal. intros H.
  apply andb_true_iff in H. destruct H as (Hs & H). split; [exact Hs|].
  destruct (Pg.parse_number (chars lit)) as [[l [|c r]]|]; try discriminate.
  apply String.eqb_eq in H. subst l. reflexivity.
Qed.

Lemma storable_members ms kv :
  forallb (fun kv => safe_string (fst kv) && storable (snd kv)) ms = true ->
  In kv ms -> safe_string (fst kv) = true /\ storable (snd kv) = true.
Proof.
  intros H Hin. rewrite forallb_forall in H.
  apply andb_true_iff, (H kv Hin).
Qed.

Lemma clean_dumps v :
  storable v = true -> clean (chars (Py.dumps v)) = true.
Proof.
  unfold Py.dumps. induction v using json_induction; intros Hp.
  - reflexivity.
  - destruct b; reflexivity.
  - apply clean_safe, (number_literal_facts _ Hp).
  - cbn [render]. rewrite (encode_safe _ Hp). apply clean_quoted, Hp.
  - change (render Py.encode_basestring_ascii (JArray items))
      with ("[" ++ join ", " (map (render Py.encode_basestring_ascii) items)
            ++ "]")%string.
    rewrite !chars_app, !clean_app.
    rewrite clean_join; [reflexivity | reflexivity |].
    apply Forall_forall. intros x Hx. apply in_map_iff in Hx.
    destruct Hx as (y & <- & Hy). rewrite Forall_forall in H.
    apply (H y Hy). simpl in Hp. rewrite forallb_forall in Hp. apply Hp, Hy.
  - change (render Py.encode_basestring_ascii (JObject ms))
      with ("{" ++ join ", "
                     (map (fun kv => Py.encode_basestring_ascii (fst kv) ++ ": "
                                     ++ render Py.encode_basestring_ascii (snd kv))
                        ms)
            ++ "}")%string.
    rewrite !chars_app, !clean_app.
    rewrite clean_join; [reflexivity | reflexivity |].
    apply Forall_forall. intros x Hx. apply in_map_iff in Hx.
    destruct Hx as ([k y] & <- & Hy). rewrite Forall_forall in H.
    destruct (storable_members _ _ Hp Hy) as (Hk & Hv).
    pose proof (H (k, y) Hy Hv) as Hy'. cbn [fst snd] in *.
    rewrite !chars_app, !clean_app, (encode_safe _ Hk), (clean_quoted _ Hk).
    rewrite Hy'. reflexivity.
Qed.

(** [COPY] leaves a clean field as it is. *)
Lemma unescape_clean : forall l f,
  clean l = true -> List.length l <= f -> Pg.unescape f l = l.
Proof.
  induction l as [|c l IH]; intros f Hc Hf.
  - destruct f; reflexivity.
  - destruct f as [|f]; [simpl in Hf; lia|].
    simpl in Hc. apply andb_true_iff in Hc. destruct Hc as (Hc & Hl).
    apply andb_true_iff in Hc. destruct Hc as (_ & Hb).
    apply negb_true_iff in Hb.
    rewrite unescape_S, Hb. f_equal. apply IH; [exact Hl | simpl in Hf; lia].
Qed.

(** *** Reading back what [json.dumps] wrote *)

Lemma parse_string_safe : forall s acc rest f,
  forallb safe_char s = true ->
  List.length s < f ->
  Pg.parse_string f acc (s ++ dquote :: rest)
  = Some (text (rev acc ++ s), rest).
Proof.
  induction s as [|c s IH]; intros acc rest f Hs Hf.
  - destruct f as [|f]; [lia|]. rewrite parse_string_S, app_nil_r. reflexivity.
  - destruct f as [|f]; [simpl in Hf; lia|].
    simpl in Hs. apply andb_true_iff in Hs. destruct Hs as (Hc & Hs).
    destruct (safe_char_facts c Hc) as (Hl & _ & Hq & Hb).
    rewrite parse_string_S. cbn [app]. rewrite Hq, Hb.
    replace (code c <? 32)%N with false by (symmetry; apply N.ltb_ge, Hl).
    rewrite IH; [|exact Hs | simpl in Hf; lia].
    cbn [rev]. rewrite <- app_assoc. reflexivity.
Qed.

Lemma stops_starts_with x rest :
  stops rest = true ->
  eqc x "," = false -> eqc x "]" = false -> eqc x "}" = false ->
  Pg.starts_with x rest = false.
Proof.
  intros Hs H1 H2 H3. destruct rest as [|d rest]; [reflexivity|].
  simpl in Hs. cbn [Pg.starts_with].
  destruct (eqc x d) eqn:E; [|reflexivity].
  apply Ascii.eqb_eq in E. subst d. rewrite H1, H2, H3 in Hs. discriminate.
Qed.

Lemma stops_digit rest :
  stops rest = true ->
  forall c r, rest = c :: r -> is_digit c = false.
Proof.
  intros Hs c r ->. simpl in Hs.
  destruct (eqc c ",") eqn:E1;
    [apply Ascii.eqb_eq in E1; subst c; reflexivity|].
  destruct (eqc c "]") eqn:E2;
    [apply Ascii.eqb_eq in E2; subst c; reflexivity|].
  destruct (eqc c "}") eqn:E3;
    [apply Ascii.eqb_eq in E3; subst c; reflexivity|].
  discriminate.
Qed.

Lemma starts_with_app x a rest :
  Pg.starts_with x rest = false ->
  Pg.starts_with x (a ++ rest) = Pg.starts_with x a.
Proof. intros H. destruct a; [exact H | reflexivity]. Qed.

Lemma tl_app x (a rest : list ascii) :
  Pg.starts_with x a = true -> tl (a ++ rest) = tl a ++ rest.
Proof. destruct a; [discriminate | reflexivity]. Qed.

Lemma firstn_app1 x (a rest : list ascii) :
  Pg.starts_with x a = true -> firstn 1 (a ++ rest) = firstn 1 a.
Proof. destruct a; [discriminate | reflexivity]. Qed.

Lemma span_app p rest :
  (forall c r, rest = c :: r -> p c = false) ->
  forall a,
    Pg.span p (a ++ rest)
    = (fst (Pg.span p a), snd (Pg.span p a) ++ rest).
Proof.
  intros Hrest. induction a as [|x a IH].
  - destruct rest as [|c r]; [reflexivity|].
    simpl. rewrite (Hrest c r eq_refl). reflexivity.
  - simpl. destruct (p x); [|reflexivity].
    rewrite IH. destruct (Pg.span p a). reflexivity.
Qed.

(** A number literal is read the same with more text after it, when that
    text cannot continue a number. *)
Lemma parse_number_app a rest lit r :
  stops rest = true ->
  Pg.parse_number a = Some (lit, r) ->
  Pg.parse_number (a ++ rest) = Some (lit, r ++ rest).
Proof.
  intros Hs.
  pose proof (stops_digit rest Hs) as Hd.
  pose proof (stops_starts_with "-" rest Hs eq_refl eq_refl eq_refl) as Hm.
  pose proof (stops_starts_with "+" rest Hs eq_refl eq_refl eq_refl) as Hp.
  pose proof (stops_starts_with "." rest Hs eq_refl eq_refl eq_refl) as Hdot.
  pose proof (stops_starts_with "e" rest Hs eq_refl eq_refl eq_refl) as He.
  pose proof (stops_starts_with "E" rest Hs eq_refl eq_refl eq_refl) as HE.
  assert (Tail : forall sign l1,
    (let (int, l2) := Pg.span is_digit l1 in
     match int with
     | [] => None
     | d :: ds =>
         if eqc d "0" && negb (match ds with [] => true | _ => false end)
         then None
         else
           let frac :=
             if Pg.starts_with "." l2 then
               let (fd, l3) := Pg.span is_digit (tl l2) in
               match fd with
               | [] => None
               | _ => Some ("."%char :: fd, l3)
               end
             else Some ([], l2) in
           match frac with
           | None => None
           | Some (fr, l3) =>
               if Pg.starts_with "e" l3 || Pg.starts_with "E" l3 then
                 let l4 := tl l3 in
                 let (es, l5) :=
                   if Pg.starts_with "+" l4 then (["+"%char], tl l4)
                   else if Pg.starts_with "-" l4 then (["-"%char], tl l4)
                   else ([], l4) in
                 let (ed, l6) := Pg.span is_digit l5 in
                 match ed with
                 | [] => None
                 | _ =>
                     Some (text (sign ++ int ++ fr ++ firstn 1 l3 ++ es ++ ed),
                           l6)
                 end
               else Some (text (sign ++ int ++ fr), l3)
           end
     end) = Some (lit, r) ->
    (let (int, l2) := Pg.span is_digit (l1 ++ rest) in
     match int with
     | [] => None
     | d :: ds =>
         if eqc d "0" && negb (match ds with [] => true | _ => false end)
         then None
         else
           let frac :=
             if Pg.starts_with "." l2 then
               let (fd, l3) := Pg.span is_digit (tl l2) in
               match fd with
               | [] => None
               | _ => Some ("."%char :: fd, l3)
               end
             else Some ([], l2) in
           match frac with
           | None => None
           | Some (fr, l3) =>
               if Pg.starts_with "e" l3 || Pg.starts_with "E" l3 then
                 let l4 := tl l3 in
                 let (es, l5) :=
                   if Pg.starts_with "+" l4 then (["+"%char], tl l4)
                   else if Pg.starts_with "-" l4 then (["-"%char], tl l4)
                   else ([], l4) in
                 let (ed, l6) := Pg.span is_digit l5 in
                 match ed with
                 | [] => None
                 | _ =>
                     Some (text (sign ++ int ++ fr ++ firstn 1 l3 ++ es ++ ed),
                           l6)
                 end
               else Some (text (sign ++ int ++ fr), l3)
           end
     end) = Some (lit, r ++ rest)).
  { intros sign l1. rewrite (span_app is_digit rest Hd l1).
    destruct (Pg.span is_digit l1) as [int l2]. cbn [fst snd].
    destruct int as [|d ds]; [discriminate|].
    destruct (eqc d "0" && _); [discriminate|].
    rewrite (starts_with_app "." l2 rest Hdot).
    destruct (Pg.starts_with "." l2) eqn:Edot.
    - rewrite (tl_app _ _ rest Edot), (span_app is_digit rest Hd (tl l2)).
      destruct (Pg.span is_digit (tl l2)) as [fd l3]. cbn [fst snd].
      destruct fd as [|x fd]; [discriminate|]. cbv zeta.
      rewrite (starts_with_app "e" l3 rest He),
        (starts_with_app "E" l3 rest HE).
      destruct (Pg.starts_with "e" l3 || Pg.starts_with "E" l3) eqn:Ee.
      + assert (Et : tl (l3 ++ rest) = tl l3 ++ rest
                     /\ firstn 1 (l3 ++ rest) = firstn 1 l3).
        { destruct l3; [discriminate | split; reflexivity]. }
        destruct Et as (-> & ->).
        rewrite (starts_with_app "+" (tl l3) rest Hp),
          (starts_with_app "-" (tl l3) rest Hm).
        destruct (Pg.starts_with "+" (tl l3)) eqn:Eplus.
        * rewrite (tl_app _ _ rest Eplus),
            (span_app is_digit rest Hd (tl (tl l3))).
          destruct (Pg.span is_digit (tl (tl l3))) as [ed l6]. cbn [fst snd].
          destruct ed; [discriminate|]. intros H. injection H as <- <-.
          reflexivity.
        * destruct (Pg.starts_with "-" (tl l3)) eqn:Eminus.
          -- rewrite (tl_app _ _ rest Eminus),
               (span_app is_digit rest Hd (tl (tl l3))).
             destruct (Pg.span is_digit (tl (tl l3))) as [ed l6].
             cbn [fst snd].
             destruct ed; [discriminate|]. intros H. injection H as <- <-.
             reflexivity.
          -- rewrite (span_app is_digit rest Hd (tl l3)).
             destruct (Pg.span is_digit (tl l3)) as [ed l6]. cbn [fst snd].
             destruct ed; [discriminate|]. intros H. injection H as <- <-.
             reflexivity.
      + intros H. injection H as <- <-. reflexivity.
    - cbv zeta.
      rewrite (starts_with_app "e" l2 rest He),
        (starts_with_app "E" l2 rest HE).
      destruct (Pg.starts_with "e" l2 || Pg.starts_with "E" l2) eqn:Ee.
      + assert (Et : tl (l2 ++ rest) = tl l2 ++ rest
                     /\ firstn 1 (l2 ++ rest) = firstn 1 l2).
        { destruct l2; [discriminate | split; reflexivity]. }
        destruct Et as (-> & ->).
        rewrite (starts_with_app "+" (tl l2) rest Hp),
          (starts_with_app "-" (tl l2) rest Hm).
        destruct (Pg.starts_with "+" (tl l2)) eqn:Eplus.
        * rewrite (tl_app _ _ rest Eplus),
            (span_app is_digit rest Hd (tl (tl l2))).
          destruct (Pg.span is_digit (tl (tl l2))) as [ed l6]. cbn [fst snd].
          destruct ed; [discriminate|]. intros H. injection H as <- <-.
          reflexivity.
        * destruct (Pg.starts_with "-" (tl l2)) eqn:Eminus.
          -- rewrite (tl_app _ _ rest Eminus),
               (span_app is_digit rest Hd (tl (tl l2))).
             destruct (Pg.span is_digit (tl (tl l2))) as [ed l6].
             cbn [fst snd].
             destruct ed; [discriminate|]. intros H. injection H as <- <-.
             reflexivity.
          -- rewrite (span_app is_digit rest Hd (tl l2)).
             destruct (Pg.span is_digit (tl l2)) as [ed l6]. cbn [fst snd].
             destruct ed; [discriminate|]. intros H. injection H as <- <-.
             reflexivity.
      + intros H. injection H as <- <-. reflexivity. }
  unfold Pg.parse_number. rewrite (starts_with_app "-" a rest Hm).
  destruct (Pg.starts_with "-" a) eqn:Es'.
  - rewrite (tl_app _ _ rest Es'). apply Tail.
  - apply Tail.
Qed.

End RoundTrip.

(** ** The reader of [json] on what [json.dumps] wrote *)

Section Reader.

Import Text.

Lemma pv_space f x : Pg.parse_value f (" "%char :: x) = Pg.parse_value f x.
Proof. destruct f; [reflexivity|]. rewrite !parse_value_S. reflexivity. Qed.

Lemma pi_space f x : Pg.parse_items f (" "%char :: x) = Pg.parse_items f x.
Proof.
  destruct f; [reflexivity|]. rewrite !parse_items_S, pv_space. reflexivity.
Qed.

Lemma pm_space f x : Pg.parse_members f (" "%char :: x) = Pg.parse_members f x.
Proof. destruct f; [reflexivity|]. rewrite !parse_members_S. reflexivity. Qed.

Lemma span_head p : forall a d ds l2,
  Pg.span p a = (d :: ds, l2) -> exists a', a = d :: a' /\ p d = true.
Proof.
  intros [|x a] d ds l2 H; simpl in H; [discriminate|].
  destruct (p x) eqn:E; [|discriminate].
  destruct (Pg.span p a). injection H as <- _ _. eauto.
Qed.

Lemma number_head a lit r :
  Pg.parse_number a = Some (lit, r) ->
  exists c a', a = c :: a' /\ (c = "-"%char \/ is_digit c = true).
Proof.
  unfold Pg.parse_number. destruct (Pg.starts_with "-" a) eqn:Es.
  - destruct a as [|c a']; [discriminate|]. cbn [Pg.starts_with] in Es.
    apply Ascii.eqb_eq in Es. subst c. eauto.
  - destruct (Pg.span is_digit a) as [int l2] eqn:E.
    destruct int as [|d ds]; [discriminate|].
    destruct (span_head _ _ _ _ _ E) as (a' & -> & Hd). eauto.
Qed.

Lemma pv_not_close f l x :
  Pg.parse_value f l = Some x ->
  Pg.starts_with "]" (Pg.skip_ws l) = false.
Proof.
  destruct f; [discriminate|]. rewrite parse_value_S.
  destruct (Pg.skip_ws l) as [|c l']; [reflexivity|].
  cbn [Pg.starts_with]. destruct (eqc "]" c) eqn:E; [|reflexivity].
  apply Ascii.eqb_eq in E. subst c. simpl. discriminate.
Qed.

Lemma pi_not_close f l x :
  Pg.parse_items f l = Some x ->
  Pg.starts_with "]" (Pg.skip_ws l) = false.
Proof.
  destruct f; [discriminate|]. rewrite parse_items_S.
  destruct (Pg.parse_value f l) as [[v r]|] eqn:E; [|discriminate].
  intros _. exact (pv_not_close _ _ _ E).
Qed.

Lemma digit_head c :
  is_digit c = true ->
  Pg.is_ws c = false /\ eqc c "{" = false /\ eqc c "[" = false
  /\ eqc c dquote = false /\ eqc c "t" = false /\ eqc c "f" = false
  /\ eqc c "n" = false.
Proof.
  intros H.
  assert (G : forall x, is_digit x = false -> eqc c x = false).
  { intros x Hx. destruct (eqc c x) eqn:E; [|reflexivity].
    apply Ascii.eqb_eq in E. subst x. congruence. }
  repeat split; try (apply G; reflexivity).
  unfold is_digit in H. apply andb_true_iff in H. destruct H as (L & _).
  apply N.leb_le in L. unfold Pg.is_ws.
  repeat (apply orb_false_iff; split); apply N.eqb_neq; lia.
Qed.

Lemma pv_number lit rest f :
  Pg.parse_number (chars lit) = Some (lit, []) ->
  stops rest = true -> 1 <= f ->
  Pg.parse_value f (chars lit ++ rest) = Some (JNumber lit, rest).
Proof.
  intros Hn Hs Hf. destruct f as [|f]; [lia|].
  pose proof (parse_number_app _ rest _ _ Hs Hn) as Happ.
  destruct (number_head _ _ _ Hn) as (c & a' & Ea & Hc).
  rewrite Ea in *. cbn [app] in *. rewrite parse_value_S.
  destruct Hc as [-> | Hd].
  - cbn [Pg.skip_ws]. change (Pg.is_ws "-") with false. cbv iota.
    change (eqc "-" "{") with false. change (eqc "-" "[") with false.
    change (eqc "-" dquote) with false. change (eqc "-" "t") with false.
    change (eqc "-" "f") with false. change (eqc "-" "n") with false.
    cbv iota. rewrite Happ. reflexivity.
  - destruct (digit_head c Hd) as (Hw & H1 & H2 & H3 & H4 & H5 & H6).
    cbn [Pg.skip_ws]. rewrite Hw, H1, H2, H3, H4, H5, H6, Happ. reflexivity.
Qed.

Lemma chars_join_cons (d d' : string) ds :
  chars (join ", " (d :: d' :: ds))
  = chars d ++ ","%char :: " "%char :: chars (join ", " (d' :: ds)).
Proof.
  change (join ", " (d :: d' :: ds))
    with (d ++ ", " ++ join ", " (d' :: ds))%string.
  rewrite !chars_app. reflexivity.
Qed.

Lemma parse_items_dumps : forall items,
  Forall (fun v => storable v = true ->
            forall rest, stops rest = true ->
              exists f0, forall f, f0 <= f ->
                Pg.parse_value f (chars (Py.dumps v) ++ rest) = Some (v, rest))
         items ->
  forallb storable items = true ->
  items <> [] ->
  forall rest,
    exists f0, forall f, f0 <= f ->
      Pg.parse_items f
        (chars (join ", " (map Py.dumps items)) ++ "]"%char :: rest)
      = Some (items, rest).
Proof.
  intros items H. induction H as [|v items Hv Hitems IH];
    intros Hst Hne rest; [congruence|].
  simpl in Hst. apply andb_true_iff in Hst. destruct Hst as (Hsv & Hsi).
  destruct items as [|v' items'].
  - destruct (Hv Hsv ("]"%char :: rest) eq_refl) as (fa & Ha).
    exists (S fa). intros [|g] Hg; [lia|].
    rewrite parse_items_S. cbn [map join]. rewrite Ha by lia. reflexivity.
  - destruct (IH Hsi ltac:(discriminate) rest) as (ft & Ht).
    cbn [map]. rewrite chars_join_cons, <- app_assoc. cbn [app].
    destruct (Hv Hsv (","%char :: " "%char
                        :: chars (join ", " (Py.dumps v' :: map Py.dumps items'))
                           ++ "]"%char :: rest) eq_refl) as (fa & Ha).
    exists (S (Nat.max fa ft)). intros [|g] Hg; [lia|].
    rewrite parse_items_S, Ha by lia. cbn [Pg.skip_ws].
    change (Pg.is_ws ",") with false. cbv iota.
    change (eqc "," ",") with true. cbv iota.
    rewrite pi_space. cbn [map] in Ht. rewrite Ht by lia. reflexivity.
Qed.

Lemma chars_member k v :
  safe_string k = true ->
  chars (Py.encode_basestring_ascii k ++ ": " ++ Py.dumps v)%string
  = dquote :: chars k ++ dquote :: ":"%char :: " "%char :: chars (Py.dumps v).
Proof.
  intros Hk. rewrite (encode_safe _ Hk). unfold quoted.
  rewrite !chars_app. cbn [chars list_ascii_of_string app].
  change (list_ascii_of_string (k ++ String dquote ""))
    with (chars (k ++ String dquote "")).
  rewrite chars_app, <- app_assoc. reflexivity.
Qed.

Lemma parse_members_dumps : forall ms,
  Forall (fun kv => storable (snd kv) = true ->
            forall rest, stops rest = true ->
              exists f0, forall f, f0 <= f ->
                Pg.parse_value f (chars (Py.dumps (snd kv)) ++ rest)
                = Some (snd kv, rest))
         ms ->
  forallb (fun kv => safe_string (fst kv) && storable (snd kv)) ms = true ->
  ms <> [] ->
  forall rest,
    exists f0, forall f, f0 <= f ->
      Pg.parse_members f
        (chars (join ", "
                  (map (fun kv => (Py.encode_basestring_ascii (fst kv) ++ ": "
                                   ++ Py.dumps (snd kv))%string) ms))
         ++ "}"%char :: rest)
      = Some (ms, rest).
Proof.
  intros ms H. induction H as [|[k v] ms Hv Hms IH];
    intros Hst Hne rest; [congruence|].
  simpl in Hst. apply andb_true_iff in Hst. destruct Hst as (Hkv & Hsm).
  apply andb_true_iff in Hkv. destruct Hkv as (Hk & Hsv).
  cbn [fst snd] in *.
  assert (Key : forall tail g,
             Pg.parse_members (S g)
               (dquote :: chars k ++ dquote :: ":"%char :: " "%char :: tail)
             = match Pg.parse_value g tail with
               | None => None
               | Some (v0, r) =>
                   match Pg.skip_ws r with
                   | c :: r' =>
                       if eqc c "," then
                         match Pg.parse_members g r' with
                         | Some (ms0, r'') => Some ((k, v0) :: ms0, r'')
                         | None => None
                         end
                       else if eqc c "}" then Some ([(k, v0)], r')
                       else None
                   | [] => None
                   end
               end).
  { intros tail g. rewrite parse_members_S. cbn [Pg.skip_ws].
    change (Pg.is_ws dquote) with false. cbv iota.
    change (eqc dquote dquote) with true. cbv iota.
    rewrite (parse_string_safe (chars k) [] _ _ Hk);
      [|rewrite length_app; simpl; lia].
    cbn [rev app]. rewrite !text_chars.
    cbn [Pg.skip_ws]. change (Pg.is_ws ":") with false. cbv iota.
    change (eqc ":" ":") with true. cbv iota.
    rewrite pv_space. reflexivity. }
  destruct ms as [|[k' v'] ms'].
  - destruct (Hv Hsv ("}"%char :: rest) eq_refl) as (fa & Ha).
    exists (S fa). intros [|g] Hg; [lia|].
    cbn [map join fst snd]. rewrite (chars_member _ _ Hk).
    repeat (first [rewrite <- app_assoc | progress cbn [app]]).
    rewrite Key, Ha by lia. reflexivity.
  - destruct (IH Hsm ltac:(discriminate) rest) as (ft & Ht).
    cbn [map fst snd] in *. rewrite chars_join_cons, (chars_member _ _ Hk).
    repeat (first [rewrite <- app_assoc | progress cbn [app]]).
    match goal with
    | |- context [chars (Py.dumps v) ++ ?tail] =>
        destruct (Hv Hsv tail eq_refl) as (fa & Ha)
    end.
    exists (S (Nat.max fa ft)). intros [|g] Hg; [lia|].
    rewrite Key, Ha by lia. cbn [Pg.skip_ws].
    change (Pg.is_ws ",") with false. cbv iota.
    change (eqc "," ",") with true. cbv iota.
    rewrite pm_space, Ht by lia. reflexivity.
Qed.

(** The reader gives back the document that [json.dumps] wrote. *)
Lemma parse_dumps : forall v,
  storable v = true ->
  forall rest, stops rest = true ->
    exists f0, forall f, f0 <= f ->
      Pg.parse_value f (chars (Py.dumps v) ++ rest) = Some (v, rest).
Proof.
  induction v using json_induction; intros Hst rest Hrest.
  - exists 1. intros [|f] Hf; [lia | reflexivity].
  - exists 1. intros [|f] Hf; [lia | destruct b; reflexivity].
  - exists 1. intros f Hf.
    apply pv_number; [apply (number_literal_facts _ Hst) | exact Hrest | exact Hf].
  - exists 1. intros [|f] Hf; [lia|].
    unfold Py.dumps. cbn [render]. rewrite (encode_safe _ Hst). unfold quoted.
    cbn [chars list_ascii_of_string app].
    change (list_ascii_of_string (s ++ String dquote ""))
      with (chars (s ++ String dquote "")).
    rewrite chars_app, <- app_assoc. cbn [chars list_ascii_of_string app].
    rewrite parse_value_S. cbn [Pg.skip_ws].
    change (Pg.is_ws dquote) with false. cbv iota.
    change (eqc dquote "{") with false. change (eqc dquote "[") with false.
    change (eqc dquote dquote) with true. cbv iota.
    rewrite (parse_string_safe (chars s) [] rest _ Hst);
      [|rewrite length_app; simpl; lia].
    cbn [rev app]. rewrite text_chars. reflexivity.
  - destruct items as [|v items].
    + exists 1. intros [|f] Hf; [lia | reflexivity].
    + simpl in Hst.
      destruct (parse_items_dumps (v :: items) H Hst ltac:(discriminate) rest)
        as (f0 & Hf0).
      exists (S f0). intros [|f] Hf; [lia|].
      change (Py.dumps (JArray (v :: items)))
        with ("[" ++ join ", " (map Py.dumps (v :: items)) ++ "]")%string.
      rewrite !chars_app.
      repeat (first [rewrite <- app_assoc | progress cbn [chars list_ascii_of_string app]]).
      fold (chars (join ", " (map Py.dumps (v :: items)))).
      rewrite parse_value_S. cbn [Pg.skip_ws].
      change (Pg.is_ws "[") with false. cbv iota.
      change (eqc "[" "{") with false. change (eqc "[" "[") with true.
      cbv iota. rewrite (pi_not_close _ _ _ (Hf0 f ltac:(lia))).
      rewrite Hf0 by lia. reflexivity.
  - destruct ms as [|[k v] ms].
    + exists 1. intros [|f] Hf; [lia | reflexivity].
    + simpl in Hst.
      destruct (parse_members_dumps ((k, v) :: ms) H Hst ltac:(discriminate)
                  rest) as (f0 & Hf0).
      exists (S f0). intros [|f] Hf; [lia|].
      change (Py.dumps (JObject ((k, v) :: ms)))
        with ("{" ++ join ", "
                       (map (fun kv => (Py.encode_basestring_ascii (fst kv)
                                        ++ ": " ++ Py.dumps (snd kv))%string)
                          ((k, v) :: ms))
              ++ "}")%string.
      rewrite !chars_app.
      repeat (first [rewrite <- app_assoc | progress cbn [chars list_ascii_of_string app]]).
      rewrite parse_value_S. cbn [Pg.skip_ws].
      change (Pg.is_ws "{") with false. cbv iota.
      change (eqc "{" "{") with true. cbv iota.
      assert (Hopen : Pg.starts_with "}"
                (Pg.skip_ws
                   (chars (join ", "
                      (map (fun kv => (Py.encode_basestring_ascii (fst kv)
                                       ++ ": " ++ Py.dumps (snd kv))%string)
                         ((k, v) :: ms))) ++ "}"%char :: rest)) = false).
      { apply andb_true_iff in Hst. destruct Hst as (Hkv & _).
        apply andb_true_iff in Hkv. destruct Hkv as (Hk & _).
        cbn [map fst snd]. destruct ms as [|kv' ms'].
        - cbn [map join]. rewrite (chars_member _ _ Hk). reflexivity.
        - cbn [map]. rewrite chars_join_cons, (chars_member _ _ Hk).
          reflexivity. }
      rewrite Hopen, Hf0 by lia. reflexivity.
Qed.

Lemma json_in_dumps v :
  storable v = true -> Pg.json_in (Py.dumps v) = Some v.
Proof.
  intros H. destruct (parse_dumps v H [] eq_refl) as (f0 & Hf0).
  rewrite <- (json_in_any_fuel _ f0). rewrite <- (app_nil_r (chars _)) at 2.
  rewrite Hf0 by lia. reflexivity.
Qed.

Lemma chars_dumps_array items :
  chars (Py.dumps (JArray items))
  = "["%char :: chars (join ", " (map Py.dumps items)) ++ ["]"%char].
Proof.
  change (Py.dumps (JArray items))
    with ("[" ++ join ", " (map Py.dumps items) ++ "]")%string.
  rewrite !chars_app. reflexivity.
Qed.

(** The one line that [json.dumps] gives for a list of storable records is
    read by [COPY] as one row, whose document is the list. *)
Lemma copy_row_dumps items :
  storable (JArray items) = true ->
  Pg.copy_lines (chars (Py.dumps (JArray items)))
  = [chars (Py.dumps (JArray items))]
  /\ copy_row (chars (Py.dumps (JArray items))) = Ok (Some (JArray items)).
Proof.
  intros H. pose proof (clean_dumps _ H) as Hc.
  pose proof (clean_no_control _ Hc) as Hn.
  pose proof (json_in_dumps _ H) as Hj.
  rewrite chars_dumps_array in Hc, Hn |- *.
  split; [apply copy_lines_bracket, Hn|].
  unfold copy_row.
  rewrite (split_raw_absent tab _ _ [] (le_n _)
             (no_control_free tab _ eq_refl Hn)).
  cbn [rev app]. unfold Pg.copy_field.
  match goal with
  | |- context [Pg.list_eqb ("["%char :: ?r) _] =>
      change (Pg.list_eqb ("["%char :: r) (chars "\N")) with false
  end.
  rewrite (unescape_clean _ _ Hc (le_n _)).
  rewrite <- chars_dumps_array, text_chars, Hj. reflexivity.
Qed.

(** X9: a list of storable records goes through the loader unchanged.
    When [api_results] exists, the load completes and adds one row after the
    rows that were there; the document of that row is the list itself, with
    every record as it was fetched.  Nothing else changes. *)
Theorem load_stores_the_list :
  forall (items : list json) (w : world) (t : list (option json)),
    storable (JArray items) = true ->
    api_results (db w) = Some t ->
    load_users_into_api_results (JArray items) w
    = (mkworld (mkdb (Some (t ++ [Some (JArray items)]))
                     (identities (db w)) (profiles (db w)))
               (requests w),
       Ok tt).
Proof.
  intros items w t Hst Et.
  destruct (copy_row_dumps items Hst) as (Hlines & Hrow).
  unfold load_users_into_api_results. rewrite connect_one.
  unfold copy_from_api_results. rewrite Et, Hlines. cbn [mapM].
  rewrite Hrow. reflexivity.
Qed.

(** X10: a load adds at most one row, whatever the length of the list: for
    every list whose number literals hold no control character,
    [api_results] afterwards is the table of before followed by at most one
    row, and by exactly one row, holding a list, when the load completes. *)
Theorem load_adds_at_most_one_row :
  forall (items : list json) (w : world),
    plain (JArray items) = true ->
    exists added,
      rows (api_results (db (fst (load_users_into_api_results
                                    (JArray items) w))))
      = rows (api_results (db w)) ++ added
      /\ List.length added <= 1
      /\ (snd (load_users_into_api_results (JArray items) w) = Ok tt ->
          exists items', added = [Some (JArray items')]).
Proof.
  intros items w Hp.
  destruct (load_users_into_api_results (JArray items) w)
    as [w' [[]|e]] eqn:E.
  - destruct (load_of_a_list_adds_one_row _ _ _ Hp E)
      as (t & items' & Et & ->).
    exists [Some (JArray items')]. rewrite Et. cbn [fst snd db api_results rows].
    repeat split; [apply le_n | eauto].
  - exists []. unfold load_users_into_api_results in E.
    rewrite (connect_raise _ _ _ _ E). cbn [fst snd].
    rewrite app_nil_r. repeat split; [apply le_0_n | discriminate].
Qed.

(** X11: a run from a database without tables that fetches a list of
    storable records, of whatever length, completes, whatever
    [to_timestamp] does: [api_results] holds one row with the list, and the
    two statements derive from it the empty key with a NULL username and a
    profile of NULLs. *)
Theorem run_on_storable_records :
  forall (http : string -> reply)
         (to_timestamp : string -> string -> option Z)
         (at_session_zone : Z -> Z) (amount : Z) (items : list json),
    snd (get_random_users http amount fresh) = Ok (JArray items) ->
    storable (JArray items) = true ->
    run http to_timestamp at_session_zone amount fresh
    = (mkworld (mkdb (Some [Some (JArray items)])
                     (Some [null_identity]) (Some [null_profile]))
               [("https://randomuser.me/api/?results=" ++ str amount)%string],
       Ok tt).
Proof.
  intros http ts az amount items Hget Hst. unfold run, bindM at 1.
  change (setup_db fresh) with (mkworld empty_tables [], Ok tt).
  unfold bindM at 1. unfold get_random_users in *. cbn [snd] in Hget.
  cbn [db requests]. rewrite Hget. unfold bindM.
  destruct (copy_row_dumps items Hst) as (Hlines & Hrow).
  unfold load_users_into_api_results. rewrite connect_one.
  unfold copy_from_api_results. cbn [db api_results empty_tables].
  rewrite Hlines. cbn [mapM]. rewrite Hrow. reflexivity.
Qed.

(** *** The text of a [json] string *)









(** *** The profile of a key *)







(** *** What the Normalizer asks of [to_timestamp] *)

Lemma mapM_ext {A B : Type} (f g : A -> outcome B) l :
  (forall a, In a l -> f a = g a) -> mapM f l = mapM g l.
Proof.
  induction l as [|a l IH]; intros H; [reflexivity|].
  simpl. rewrite (H a (or_introl eq_refl)), IH; [reflexivity|].
  intros b Hb. apply H. right. exact Hb.
Qed.

(** X14: the Normalizer asks [to_timestamp] for the [dob.date] texts of the
    rows of [api_results] under the one format and for nothing else: two
    functions that agree on these give the same outcome and the same
    tables. *)
Theorem normalizer_reads_only_the_dates :
  forall (ts1 ts2 : string -> string -> option Z)
         (at_session_zone : Z -> Z) (w : world),
    (forall data s,
        In data (rows (api_results (db w))) ->
        data --> "dob" -->> "date" = Some s ->
        ts1 s dob_format = ts2 s dob_format) ->
    load_results_into_identities_and_profiles ts1 at_session_zone w
    = load_results_into_identities_and_profiles ts2 at_session_zone w.
Proof.
  intros ts1 ts2 az w H.
  unfold load_results_into_identities_and_profiles. rewrite !connect_two.
  destruct (populate_identities_table (db w)) as [d1|e] eqn:E1; [|reflexivity].
  assert (Er : api_results d1 = api_results (db w)).
  { unfold populate_identities_table in E1.
    destruct (api_results (db w)); [|discriminate].
    destruct (identities (db w)); [|discriminate].
    injection E1 as <-. reflexivity. }
  unfold populate_profiles_table. rewrite Er.
  destruct (api_results (db w)) as [raw|]; [|reflexivity].
  destruct (profiles d1) as [t|]; [|reflexivity].
  rewrite (mapM_ext (profile_of ts1) (profile_of ts2) raw); [reflexivity|].
  intros data Hd. unfold profile_of, to_timestamp_call.
  destruct (data --> "dob" -->> "date") as [s|] eqn:Es; [|reflexivity].
  rewrite (H data s Hd Es). reflexivity.
Qed.

End Reader.

(** ** Examples *)

Lemma twins_run :
  load_results_into_identities_and_profiles any_instant no_offset twins
  = (twins_normalized, Ok tt).
Proof. vm_compute. reflexivity. Qed.



Lemma identities_are_first_write_wins_witness :
  primary_key (db twins)
  /\ load_results_into_identities_and_profiles any_instant no_offset twins
     = (twins_normalized, Ok tt)
  /\ forall r,
       In r (rows (identities (db twins_normalized))) ->
       Identity.id r = identity_key (Some (twin "silverswan131")) ->
       r = identity_of (Some (twin "silverswan131")).
Proof.
  assert (Hpk : primary_key (db twins))
    by (unfold primary_key; simpl; constructor).
  split; [exact Hpk|]. split; [exact twins_run|].
  intros r.
  apply (proj2 (proj2 (identities_are_first_write_wins
                         any_instant no_offset twins twins_normalized
                         Hpk twins_run))
           (identity_key (Some (twin "silverswan131")))
           (Some (twin "silverswan131")));
    reflexivity.
Defined.

Lemma every_record_gets_one_profile_witness :
  unique_identity_id (db twins)
  /\ load_results_into_identities_and_profiles any_instant no_offset twins
     = (twins_normalized, Ok tt)
  /\ count_identity_id (identity_key (Some (twin "bluefrog202")))
       (rows (profiles (db twins_normalized))) = 1.
Proof.
  assert (Hu : unique_identity_id (db twins))
    by (unfold unique_identity_id; simpl; constructor).
  split; [exact Hu|]. split; [exact twins_run|].
  apply (proj2 (every_record_gets_one_profile
                  any_instant no_offset twins twins_normalized Hu twins_run)
           (Some (twin "bluefrog202"))).
  simpl. right. left. reflexivity.
Defined.


Lemma uniqueness_constraints_are_invariant_witness :
  (primary_key (db fresh) /\ unique_identity_id (db fresh))
  /\ primary_key
       (db (steps (answers sample_response) any_instant no_offset
              [Run 1; Normalize; Run 2] fresh)).
Proof.
  assert (H : primary_key (db fresh) /\ unique_identity_id (db fresh))
    by (split; constructor).
  split; [exact H|].
  exact (proj1 (uniqueness_constraints_are_invariant
                  (answers sample_response) any_instant no_offset _ fresh H)).
Defined.

Lemma load_stores_the_list_witness :
  storable (JArray [sample_user]) = true
  /\ api_results (db (mkworld empty_tables [])) = Some []
  /\ load_users_into_api_results (JArray [sample_user])
       (mkworld empty_tables [])
     = (mkworld (mkdb (Some [Some (JArray [sample_user])]) (Some []) (Some []))
                [],
        Ok tt).
Proof.
  assert (H : storable (JArray [sample_user]) = true)
    by (vm_compute; reflexivity).
  split; [exact H|]. split; [reflexivity|].
  exact (load_stores_the_list [sample_user] (mkworld empty_tables []) []
           H eq_refl).
Defined.

Lemma load_adds_at_most_one_row_witness :
  plain (JArray [twin "silverswan131"; twin "bluefrog202"]) = true
  /\ exists added,
       rows (api_results
               (db (fst (load_users_into_api_results
                           (JArray [twin "silverswan131"; twin "bluefrog202"])
                           (mkworld empty_tables [])))))
       = rows (api_results (db (mkworld empty_tables []))) ++ added
       /\ List.length added <= 1.
Proof.
  assert (H : plain (JArray [twin "silverswan131"; twin "bluefrog202"]) = true)
    by (vm_compute; reflexivity).
  split; [exact H|].
  destruct (load_adds_at_most_one_row _ (mkworld empty_tables []) H)
    as (added & E & L & _).
  exists added. split; assumption.
Defined.

Lemma run_on_storable_records_witness :
  snd (get_random_users (answers sample_response) default_amount fresh)
  = Ok (JArray [sample_user])
  /\ storable (JArray [sample_user]) = true
  /\ main (answers sample_response) no_instant no_offset fresh
     = (mkworld (mkdb (Some [Some (JArray [sample_user])])
                      (Some [null_identity]) (Some [null_profile]))
                ["https://randomuser.me/api/?results=5000"%string],
        Ok tt).
Proof.
  assert (H1 : snd (get_random_users (answers sample_response)
                      default_amount fresh)
               = Ok (JArray [sample_user])) by reflexivity.
  assert (H2 : storable (JArray [sample_user]) = true)
    by (vm_compute; reflexivity).
  split; [exact H1|]. split; [exact H2|].
  exact (run_on_storable_records (answers sample_response) no_instant
           no_offset default_amount [sample_user] H1 H2).
Defined.



Lemma normalizer_reads_only_the_dates_witness :
  (forall data s,
      In data (rows (api_results (db initialized))) ->
      data --> "dob" -->> "date" = Some s ->
      any_instant s dob_format = sample_instant s dob_format)
  /\ load_results_into_identities_and_profiles any_instant no_offset
       initialized
     = load_results_into_identities_and_profiles sample_instant no_offset
         initialized.
Proof.
  assert (H : forall data s,
             In data (rows (api_results (db initialized))) ->
             data --> "dob" -->> "date" = Some s ->
             any_instant s dob_format = sample_instant s dob_format).
  { intros data s [<- | []] Es. injection Es as <-. reflexivity. }
  split; [exact H|].
  exact (normalizer_reads_only_the_dates any_instant sample_instant no_offset
           initialized H).
Defined.
